(** * CRM GraphQL mutations: a shallow embedding of [crm/schema.py],
      [crm/models.py] and [crm/filters.py]

    The resolvers are Python functions that run against a relational
    database through an object-relational mapper.  They are embedded as
    functions in a state-and-exception monad over a record [DB] holding the
    tables as lists of rows.

    Conventions of the embedding:
    - text is [string] (ASCII); [None] is [option];
    - the database is SQLite, Django's default: [=] on text is exact, [LIKE]
      ignores the case of ASCII letters, and an integer parameter beyond 64
      bits is refused with [OverflowError]. Keys are integers without bound
      here; a statement that gives the exact outcome for a key that may not
      be stored assumes it within the 64 bits;
    - an amount of a [DecimalField] is a finite number counted in hundredths,
      the resolution the columns declare ([decimal_places=2]). The values
      [NaN] and [Infinity] of a [graphene.Decimal], prices with more decimal
      places, and the size limits of columns ([max_length], [max_digits]) are
      not part of the model;
    - a list argument holds values; a [null] element, which the schema
      admits in [[BulkCustomerInput]!] and [[ID]!], is not part of the model;
    - [auto_now_add] timestamps are left out of the rows. *)

From Stdlib Require Import ZArith Ascii String List Lia.
From stdpp Require Import base decidable option list strings gmap pretty.

Open Scope Z_scope.

(** ** Python values and exceptions *)

(** The exceptions the resolvers can meet. [ValidationError] is Django's, with
    its [message] and [code]; [Exception] is the plain Python exception the
    resolvers raise themselves. *)
Inductive exn : Type :=
| ValidationError (message code : string)
| IntegrityError (detail : string)
| DoesNotExist
| ValueError (detail : string)
| TypeError (detail : string)
| AttributeError (detail : string)
| Exception (message : string).

Inductive outcome (A : Type) : Type :=
| Return (a : A)
| Raise (e : exn).
Arguments Return {A} a.
Arguments Raise {A} e.

Definition raised {A} (o : outcome A) : Prop :=
  match o with Raise _ => True | Return _ => False end.

(** [str(e)]: a single-message [ValidationError] prints as the list of its
    messages, the other exceptions print their argument. *)
Definition exn_str (e : exn) : string :=
  match e with
  | ValidationError m _ => "['" +:+ m +:+ "']"
  | IntegrityError d | ValueError d | TypeError d | AttributeError d => d
  | DoesNotExist => "Customer matching query does not exist."
  | Exception m => m
  end.

(** [repr(s)] of a string, as [%r] writes it: between single quotes, or
    between double quotes when the string holds a single quote and no double
    quote; the quote in use and the backslash are escaped, and so are the
    characters that do not print. *)
Definition single_quote : ascii := ascii_of_N 39.
Definition double_quote : ascii := ascii_of_N 34.
Definition backslash : ascii := ascii_of_N 92.

Definition hex_digit (n : N) : ascii :=
  if (n <? 10)%N then ascii_of_N (48 + n) else ascii_of_N (87 + n).

Definition repr_char (quote c : ascii) : string :=
  let n := N_of_ascii c in
  if bool_decide (c = quote) || bool_decide (c = backslash)
  then String backslash (String c EmptyString)
  else if (n =? 9)%N then String backslash "t"
  else if (n =? 10)%N then String backslash "n"
  else if (n =? 13)%N then String backslash "r"
  else if ((n <? 32) || ((127 <=? n) && (n <=? 160)) || (n =? 173))%N
  then String backslash
         (String "x" (String (hex_digit (n / 16))
                        (String (hex_digit (n mod 16)) EmptyString)))
  else String c EmptyString.

Fixpoint repr_body (quote : ascii) (s : string) : string :=
  match s with
  | EmptyString => EmptyString
  | String c s => repr_char quote c +:+ repr_body quote s
  end.

Definition py_repr (s : string) : string :=
  let w := list_ascii_of_string s in
  let quote :=
    if bool_decide (single_quote ∈ w) && negb (bool_decide (double_quote ∈ w))
    then double_quote else single_quote in
  String quote (repr_body quote s +:+ String quote EmptyString).

(** Truth value of an optional string ([if phone:], [if not value:]): [None]
    and the empty string are false. *)
Definition truthy (s : option string) : bool :=
  match s with
  | Some (String _ _) => true
  | _ => false
  end.

(** ** Regular expressions

    A matcher by derivatives over character classes, enough for the pattern
    of [phone_validator]. *)
Inductive regex : Type :=
| Void
| Eps
| Class (p : ascii -> bool)
| Seq (r s : regex)
| Alt (r s : regex)
| Star (r : regex).

Fixpoint nullable (r : regex) : bool :=
  match r with
  | Void => false
  | Eps => true
  | Class _ => false
  | Seq r s => nullable r && nullable s
  | Alt r s => nullable r || nullable s
  | Star _ => true
  end.

Fixpoint deriv (c : ascii) (r : regex) : regex :=
  match r with
  | Void => Void
  | Eps => Void
  | Class p => if p c then Eps else Void
  | Seq r s =>
      if nullable r then Alt (Seq (deriv c r) s) (deriv c s)
      else Seq (deriv c r) s
  | Alt r s => Alt (deriv c r) (deriv c s)
  | Star r => Seq (deriv c r) (Star r)
  end.

Fixpoint matches (r : regex) (w : list ascii) : bool :=
  match w with
  | [] => nullable r
  | c :: w => matches (deriv c r) w
  end.

(** The language of a regular expression, as a relation. *)
Inductive lang : regex -> list ascii -> Prop :=
| lang_eps : lang Eps []
| lang_class p c : p c = true -> lang (Class p) [c]
| lang_seq r s u v : lang r u -> lang s v -> lang (Seq r s) (u ++ v)
| lang_alt_l r s u : lang r u -> lang (Alt r s) u
| lang_alt_r r s u : lang s u -> lang (Alt r s) u
| lang_star_nil r : lang (Star r) []
| lang_star_cons r c u v :
    lang r (c :: u) -> lang (Star r) v -> lang (Star r) (c :: u ++ v).

(** [r?], [r{n}], [r{0,n}] and [r{lo,hi}]. *)
Definition opt (r : regex) : regex := Alt Eps r.

Fixpoint rep (n : nat) (r : regex) : regex :=
  match n with
  | O => Eps
  | S n => Seq r (rep n r)
  end.

Fixpoint rep_upto (n : nat) (r : regex) : regex :=
  match n with
  | O => Eps
  | S n => opt (Seq r (rep_upto n r))
  end.

Definition rep_range (lo hi : nat) (r : regex) : regex :=
  Seq (rep lo r) (rep_upto (hi - lo) r).

Definition chr (c : ascii) : regex := Class (fun x => bool_decide (x = c)).

(** [\d], on ASCII text. *)
Definition is_digit (c : ascii) : bool :=
  let n := N_of_ascii c in ((48 <=? n) && (n <=? 57))%N.
Definition digit : regex := Class is_digit.

(** [re.search] with a pattern of the shape [^r$]: the whole string is in the
    language of [r], or it is such a string followed by one newline ([$]
    also matches just before a final newline). *)
Definition newline : ascii := ascii_of_N 10.
Definition search_anchored (r : regex) (s : string) : bool :=
  matches (Seq r (opt (chr newline))) (list_ascii_of_string s).

(** ** [phone_validator] (schema.py, lines 29-32)

    [^\+?\d{1,3}[- ]?(\d{3}[- ]?\d{3}[- ]?\d{4}|\(\d{3}\)[- ]?\d{3}[- ]?\d{4}|\d{10,15})$] *)
Definition sep : regex :=
  Class (fun c => bool_decide (c = "-"%char) || bool_decide (c = " "%char)).

Definition phone_tail : regex :=
  Seq (opt sep) (Seq (rep 3 digit) (Seq (opt sep) (rep 4 digit))).

Definition phone_regex : regex :=
  Seq (opt (chr "+"))
   (Seq (rep_range 1 3 digit)
    (Seq (opt sep)
     (Alt (Seq (rep 3 digit) phone_tail)
      (Alt (Seq (chr "(") (Seq (rep 3 digit) (Seq (chr ")") phone_tail)))
           (rep_range 10 15 digit))))).

Definition phone_message : string :=
  "Phone number must be entered in the format: '+999999999'. Up to 15 digits allowed.".

(** ** The models (models.py) *)

Abbreviation Decimal := Z (only parsing).

Module Customer.
Record t : Type := { id : Z; name : string; email : string; phone : option string }.
(** An instance built by [Customer(name=..., email=..., phone=...)] and not
    saved yet. *)
Record new : Type := { new_name : string; new_email : string; new_phone : option string }.
Definition saved (pk : Z) (c : new) : t :=
  {| id := pk; name := new_name c; email := new_email c; phone := new_phone c |}.
End Customer.

Module Product.
Record t : Type := { id : Z; name : string; price : Decimal; stock : Z }.
End Product.

Module Order.
(** [customer] is the foreign key; the many-to-many [products] live in the
    table [crm_order_products]. *)
Record t : Type := { id : Z; customer : Z; total_amount : Decimal }.
Definition with_total_amount (total : Decimal) (o : t) : t :=
  {| id := id o; customer := customer o; total_amount := total |}.
End Order.

#[global] Instance Customer_eq_dec : EqDecision Customer.t.
Proof. solve_decision. Defined.
#[global] Instance Product_eq_dec : EqDecision Product.t.
Proof. solve_decision. Defined.
#[global] Instance Order_eq_dec : EqDecision Order.t.
Proof. solve_decision. Defined.

(** The database: one list of rows per table, in insertion order. A row of
    [crm_order_products] is (order id, product id). *)
Record DB : Type := {
  crm_customer : list Customer.t;
  crm_product : list Product.t;
  crm_order : list Order.t;
  crm_order_products : list (Z * Z)
}.

Definition set_crm_customer (rows : list Customer.t) (db : DB) : DB :=
  {| crm_customer := rows; crm_product := crm_product db;
     crm_order := crm_order db; crm_order_products := crm_order_products db |}.
Definition set_crm_product (rows : list Product.t) (db : DB) : DB :=
  {| crm_customer := crm_customer db; crm_product := rows;
     crm_order := crm_order db; crm_order_products := crm_order_products db |}.
Definition set_crm_order (rows : list Order.t) (db : DB) : DB :=
  {| crm_customer := crm_customer db; crm_product := crm_product db;
     crm_order := rows; crm_order_products := crm_order_products db |}.
Definition set_crm_order_products (rows : list (Z * Z)) (db : DB) : DB :=
  {| crm_customer := crm_customer db; crm_product := crm_product db;
     crm_order := crm_order db; crm_order_products := rows |}.

Definition emails (db : DB) : list string := Customer.email <$> crm_customer db.

(** [unique=True] on [Customer.email]. *)
Definition unique_emails (db : DB) : Prop := NoDup (emails db).

(** ** The monad of resolvers: database state and exceptions *)

Definition Py (A : Type) : Type := DB -> outcome A * DB.

#[global] Instance Py_ret : MRet Py := fun A a db => (Return a, db).
#[global] Instance Py_bind : MBind Py := fun A B f m db =>
  match m db with
  | (Return a, db') => f a db'
  | (Raise e, db') => (Raise e, db')
  end.

Definition raise {A} (e : exn) : Py A := fun db => (Raise e, db).
Definition get_db : Py DB := fun db => (Return db, db).

(** [try: body except ...: handler]; a handler re-raises what it does not
    catch. *)
Definition try_except {A} (body : Py A) (handler : exn -> Py A) : Py A :=
  fun db =>
    match body db with
    | (Return a, db') => (Return a, db')
    | (Raise e, db') => handler e db'
    end.

(** [transaction.atomic]: an exception leaving the block rolls the database
    back to its state at entry. *)
Definition atomic {A} (body : Py A) : Py A :=
  fun db =>
    match body db with
    | (Return a, db') => (Return a, db')
    | (Raise e, _) => (Raise e, db)
    end.

Fixpoint for_each {A B} (f : A -> Py B) (l : list A) : Py (list B) :=
  match l with
  | [] => mret []
  | a :: l => b ← f a; bs ← for_each f l; mret (b :: bs)
  end.

(** ** The object-relational mapper, as far as the resolvers use it *)

(** A fresh primary key: one more than the largest in the table. *)
Definition next_pk (pks : list Z) : Z := 1 + foldr Z.max 0 pks.

Definition unique_email_detail : string :=
  "UNIQUE constraint failed: crm_customer.email".
Definition stock_not_null_detail : string :=
  "NOT NULL constraint failed: crm_product.stock".

(** One INSERT into [crm_customer]; the unique index on [email] refuses an
    address that is already there. *)
Definition Customer_insert (c : Customer.new) : Py Customer.t :=
  fun db =>
    if bool_decide (Customer.new_email c ∈ emails db)
    then (Raise (IntegrityError unique_email_detail), db)
    else
      let row := Customer.saved (next_pk (Customer.id <$> crm_customer db)) c in
      (Return row, set_crm_customer (crm_customer db ++ [row]) db).

(** [Customer.objects.create(name=..., email=..., phone=...)] *)
Definition Customer_objects_create (name email : string) (phone : option string)
  : Py Customer.t :=
  Customer_insert
    {| Customer.new_name := name; Customer.new_email := email;
       Customer.new_phone := phone |}.

(** [Customer.objects.bulk_create(objs)]: the rows go in in order, inside a
    transaction of its own. *)
Definition Customer_objects_bulk_create (objs : list Customer.new)
  : Py (list Customer.t) :=
  atomic (for_each Customer_insert objs).

(** [Customer.objects.filter(email=email).exists()] *)
Definition Customer_objects_filter_email_exists (email : string) : Py bool :=
  db ← get_db; mret (bool_decide (email ∈ emails db)).

(** [Customer.objects.filter(email__in=l).values_list('email', flat=True)] *)
Definition Customer_objects_filter_email_in (l : list string) : Py (list string) :=
  db ← get_db; mret (filter (fun e => e ∈ l) (emails db)).

(** [Customer.objects.get(pk=pk)], with [pk] already a number. *)
Definition Customer_objects_get (pk : Z) : Py Customer.t :=
  db ← get_db;
  match filter (fun c => Customer.id c = pk) (crm_customer db) with
  | c :: _ => mret c
  | [] => raise DoesNotExist
  end.

(** [Product.objects.create(name=..., price=..., stock=...)]; the column
    [stock] is not nullable. *)
Definition Product_objects_create (name : string) (price : Decimal)
    (stock : option Z) : Py Product.t :=
  fun db =>
    match stock with
    | None => (Raise (IntegrityError stock_not_null_detail), db)
    | Some stock =>
        let row := {| Product.id := next_pk (Product.id <$> crm_product db);
                      Product.name := name; Product.price := price;
                      Product.stock := stock |} in
        (Return row, set_crm_product (crm_product db ++ [row]) db)
    end.

(** The lazy queryset [Product.objects.filter(pk__in=pks)] is kept as the list
    [pks]; each use of it runs against the database of that moment. *)
Definition Product_rows (pks : list Z) (db : DB) : list Product.t :=
  filter (fun p => Product.id p ∈ pks) (crm_product db).

(** [products.count()] and the iteration over [products] run the query. A
    key beyond the 64 bits of SQLite, for which the query raises
    [OverflowError], is outside the model (see the conventions). *)
Definition QuerySet_count (pks : list Z) : Py nat :=
  db ← get_db; mret (length (Product_rows pks db)).

Definition QuerySet_iter (pks : list Z) : Py (list Product.t) :=
  db ← get_db; mret (Product_rows pks db).

(** [Order.objects.create(customer=customer)]; [total_amount] takes its
    default, 0.00. *)
Definition Order_objects_create (customer : Customer.t) : Py Order.t :=
  fun db =>
    let row := {| Order.id := next_pk (Order.id <$> crm_order db);
                  Order.customer := Customer.id customer;
                  Order.total_amount := 0 |} in
    (Return row, set_crm_order (crm_order db ++ [row]) db).

(** The products of an order: the join of its rows of [crm_order_products]
    with [crm_product]. *)
Definition related_products (order_id : Z) (db : DB) : list Product.t :=
  r ← crm_order_products db;
  if decide (r.1 = order_id)
  then filter (fun p => Product.id p = r.2) (crm_product db)
  else [].

(** [order.products.set(objs)]: links to products outside [objs] are removed,
    links to the products of [objs] that are missing are added. *)
Definition Order_products_set (order : Order.t) (objs : list Product.t) : Py unit :=
  fun db =>
    let new_ids := remove_dups (Product.id <$> objs) in
    let old_ids := Product.id <$> related_products (Order.id order) db in
    let kept :=
      filter (fun r => ¬ (r.1 = Order.id order ∧ r.2 ∉ new_ids))
             (crm_order_products db) in
    let added :=
      (fun p => (Order.id order, p)) <$> filter (fun p => p ∉ old_ids) new_ids in
    (Return tt, set_crm_order_products (kept ++ added) db).

(** [qs.aggregate(models.Sum('price'))['price__sum']]: [None] over no row. *)
Definition sum_prices (rows : list Product.t) : Decimal :=
  foldr Z.add 0 (Product.price <$> rows).

Definition aggregate_Sum_price (rows : list Product.t) : option Decimal :=
  match rows with
  | [] => None
  | _ => Some (sum_prices rows)
  end.

(** [Order.calculate_total] (models.py, lines 36-39) *)
Definition Order_calculate_total (self : Order.t) : Py Decimal :=
  db ← get_db;
  let total := aggregate_Sum_price (related_products (Order.id self) db) in
  mret (match total with Some total => total | None => 0 end).

(** [order.save()]: an UPDATE of the row with this primary key, an INSERT
    when there is none. *)
Definition Order_save (self : Order.t) : Py unit :=
  fun db =>
    if bool_decide (Order.id self ∈ Order.id <$> crm_order db)
    then
      (Return tt,
       set_crm_order
         ((fun r => if decide (Order.id r = Order.id self) then self else r)
            <$> crm_order db) db)
    else (Return tt, set_crm_order (crm_order db ++ [self]) db).

(** [Order.__str__] (models.py, lines 33-34): [self.customer] fetches the row
    the foreign key points to. *)
Definition Order_str (self : Order.t) : Py string :=
  customer ← Customer_objects_get (Order.customer self);
  mret ("Order " +:+ pretty (Order.id self) +:+ " by " +:+ Customer.name customer).

(** ** GraphQL input values (schema.py)

    An input field that is not required can be left out, given as [null], or
    given a value; a field left out takes its [default_value] when it
    declares one, and is [None] otherwise. *)
Inductive supplied (A : Type) : Type :=
| Omitted
| Null
| Value (a : A).
Arguments Omitted {A}.
Arguments Null {A}.
Arguments Value {A} a.

Definition coerce_field {A} (default_value : option A) (s : supplied A) : option A :=
  match s with
  | Omitted => default_value
  | Null => None
  | Value a => Some a
  end.

Module CustomerInput.
Record t : Type := { name : string; email : string; phone : option string }.
Definition make (name email : string) (phone : supplied string) : t :=
  {| name := name; email := email; phone := coerce_field None phone |}.
End CustomerInput.

Module BulkCustomerInput.
Record t : Type := { name : string; email : string; phone : option string }.
Definition make (name email : string) (phone : supplied string) : t :=
  {| name := name; email := email; phone := coerce_field None phone |}.
End BulkCustomerInput.

Module ProductInput.
(** [price] is a [graphene.Decimal], of which the model holds the finite
    amounts in hundredths; [stock] is a [graphene.Int], an integer of 32
    bits. *)
Record t : Type := { name : string; price : Decimal; stock : option Z }.
(** [stock = graphene.Int(required=False, default_value=0)] *)
Definition make (name : string) (price : Decimal) (stock : supplied Z) : t :=
  {| name := name; price := price; stock := coerce_field (Some 0) stock |}.
End ProductInput.

Module OrderInput.
(** [graphene.ID] values arrive as strings. *)
Record t : Type := { customer_id : string; product_ids : list string }.
End OrderInput.

(** The payloads the mutations return. *)
Module CreateCustomer.
Record t : Type := { customer : Customer.t; message : string }.
End CreateCustomer.

Module BulkCreateCustomers.
Record t : Type := { customers : list Customer.t; errors : list string }.
End BulkCreateCustomers.

Module CreateProduct.
Record t : Type := { product : Product.t }.
End CreateProduct.

Module CreateOrder.
Record t : Type := { order : Order.t }.
End CreateOrder.

(** ** Validators *)

(** [str(value)] of an optional string. *)
Definition py_str (v : option string) : string :=
  match v with
  | Some s => s
  | None => "None"
  end.

Definition valid_phone (phone : string) : bool := search_anchored phone_regex phone.

(** [phone_validator(value)]: a [RegexValidator] searches its pattern in
    [str(value)] and raises [ValidationError(message, code='invalid')] when
    nothing is found. *)
Definition phone_validator (value : option string) : Py unit :=
  if valid_phone (py_str value) then mret tt
  else raise (ValidationError phone_message "invalid").

Definition email_message : string := "Enter a valid email address.".

(** A [ValidationError] built from one message has the attributes [message],
    [code], [params] and [error_list]; reading any other attribute raises
    [AttributeError]. The resolver reads [e.code_list]. *)
Definition ValidationError_code_list (message code : string) : Py (list string) :=
  raise (AttributeError "'ValidationError' object has no attribute 'code_list'").

(** [a < b] between an optional integer and an integer; [None < 0] is a
    [TypeError]. *)
Definition py_lt (a : option Z) (b : Z) : Py bool :=
  match a with
  | Some a => mret (bool_decide (a < b))
  | None =>
      raise (TypeError "'<' not supported between instances of 'NoneType' and 'int'")
  end.

Fixpoint for_loop {A S} (body : A -> S -> Py S) (l : list A) (s : S) : Py S :=
  match l with
  | [] => mret s
  | a :: l => s' ← body a s; for_loop body l s'
  end.

(** ** Filters (filters.py) *)

(** The lookup [phone__startswith=value] is [phone LIKE 'value%'], with the
    wildcards of [value] escaped: [LIKE] takes [A] to [Z] for [a] to [z], and
    a row without a phone matches nothing. *)
Definition like_fold_char (c : ascii) : ascii :=
  let n := N_of_ascii c in
  if ((65 <=? n) && (n <=? 90))%N then ascii_of_N (n + 32) else c.

Fixpoint like_fold (s : string) : string :=
  match s with
  | EmptyString => EmptyString
  | String c s => String (like_fold_char c) (like_fold s)
  end.

Definition phone_startswith (value : string) (c : Customer.t) : bool :=
  match Customer.phone c with
  | Some phone => String.prefix (like_fold value) (like_fold phone)
  | None => false
  end.

(** [PhonePatternFilter.filter] (filters.py, lines 7-11) *)
Definition PhonePatternFilter_filter (queryset : list Customer.t) (name : string)
    (value : option string) : list Customer.t :=
  if negb (truthy value) then queryset
  else filter (fun c => phone_startswith (py_str value) c = true) queryset.

(** A call of a class with keyword arguments runs its [__init__]; a keyword
    that [__init__] does not declare is a [TypeError]. [callee] is how Python
    names the method in the message: by its qualified name from version 3.10
    on, by its bare name before. *)
Definition call_with_keywords (callee : string) (parameters keywords : list string)
  : outcome unit :=
  match filter (fun k => k ∉ parameters) keywords with
  | [] => Return tt
  | k :: _ =>
      Raise (TypeError (callee +:+ "() got an unexpected keyword argument '"
                        +:+ k +:+ "'"))
  end.

(** [PhonePatternFilter] derives from [django_filters.FilterSet] and has no
    [__init__] of its own: a call runs
    [FilterSet.__init__(self, data=None, queryset=None, *, request=None, prefix=None)]. *)
Definition PhonePatternFilter_init_parameters : list string :=
  ["data"; "queryset"; "request"; "prefix"].

(** The statement [phone_pattern = PhonePatternFilter(field_name='phone')] of
    the body of [class CustomerFilter] (filters.py, line 19), run when the
    module is imported. *)
Definition CustomerFilter_phone_pattern (callee : string) : outcome unit :=
  call_with_keywords callee PhonePatternFilter_init_parameters ["field_name"].

(** ** Vocabulary of the statements *)

Definition is_validation_error {A} (o : outcome A) : Prop :=
  exists text, o = Raise (Exception ("Validation Error: " +:+ text)).

Definition code_list_error : exn :=
  AttributeError "'ValidationError' object has no attribute 'code_list'".

(** The integers SQLite takes as a parameter: 64 bits, signed. *)
Definition sqlite_integer (n : Z) : Prop :=
  -9223372036854775808 <= n <= 9223372036854775807.

(** How many characters of a word lie in the class [q], and bounds on that
    number over the words of a regular expression. Whether a class of the
    expression lies inside [q], or outside it, is decided over the 256
    characters. *)
Definition count_class (q : ascii -> bool) (w : list ascii) : nat :=
  length (filter (fun c => q c = true) w).

Definition all_ascii : list ascii := ascii_of_nat <$> seq 0 256.

Definition class_within (p q : ascii -> bool) : bool :=
  forallb (fun c => implb (p c) (q c)) all_ascii.

Definition class_outside (p q : ascii -> bool) : bool :=
  forallb (fun c => implb (p c) (negb (q c))) all_ascii.

Fixpoint min_count (q : ascii -> bool) (r : regex) : nat :=
  match r with
  | Void | Eps | Star _ => 0
  | Class p => if class_within p q then 1 else 0
  | Seq r s => min_count q r + min_count q s
  | Alt r s => min_count q r `min` min_count q s
  end.

Fixpoint max_count (q : ascii -> bool) (r : regex) : option nat :=
  match r with
  | Void | Eps => Some 0%nat
  | Class p => Some (if class_outside p q then 0 else 1)%nat
  | Seq r s => a ← max_count q r; b ← max_count q s; Some (a + b)%nat
  | Alt r s => a ← max_count q r; b ← max_count q s; Some (a `max` b)%nat
  | Star _ => None
  end.

(** [m] keeps the property [P] of the database, whatever it returns or
    raises. *)
Definition preserves {A} (P : DB -> Prop) (m : Py A) : Prop :=
  forall db, P db -> P (m db).2.

(** Integrity of the database: product keys are unique, and every link of
    [crm_order_products] belongs to a stored order. *)
Record well_formed (db : DB) : Prop := {
  product_pk_unique : NoDup (Product.id <$> crm_product db);
  order_fk : forall r, r ∈ crm_order_products db -> r.1 ∈ Order.id <$> crm_order db
}.

(** Keys and references: customer and order keys are unique, every order
    belongs to a stored customer, every link of [crm_order_products] points
    to a stored product. *)
Record referential_integrity (db : DB) : Prop := {
  customer_pk_unique : NoDup (Customer.id <$> crm_customer db);
  order_pk_unique : NoDup (Order.id <$> crm_order db);
  order_customer_fk :
    forall o, o ∈ crm_order db -> Order.customer o ∈ Customer.id <$> crm_customer db;
  link_product_fk :
    forall r, r ∈ crm_order_products db -> r.2 ∈ Product.id <$> crm_product db
}.

(** What the validator of [Product.stock] declares (models.py, line 22): a
    stock of at least 0. *)
Definition nonnegative_stock (db : DB) : Prop :=
  forall p, p ∈ crm_product db -> 0 <= Product.stock p.

(** Every stored price is above 0. *)
Definition positive_prices (db : DB) : Prop :=
  forall p, p ∈ crm_product db -> 0 < Product.price p.


(** Steps 3 to 5 of [CreateOrder.mutate] (lines 215-226), reached once the
    customer and the products have been validated. *)
Definition place_order (customer : Customer.t) (products : list Z)
  : Py CreateOrder.t :=
  order ← Order_objects_create customer;
  rows ← QuerySet_iter products;
  Order_products_set order rows;;
  total_amount ← Order_calculate_total order;
  let order := Order.with_total_amount total_amount order in
  Order_save order;;
  mret {| CreateOrder.order := order |}.

Definition no_products_message : string :=
  "Validation Error: Order must contain at least one product.".
Definition invalid_products_message : string :=
  "Validation Error: Invalid product ID(s) found: ".

Definition already_exists_message (name email : string) : string :=
  "Record for '" +:+ name +:+ "' failed: Email '" +:+ email +:+ "' already exists.".
Definition record_failed_message (name message : string) : string :=
  "Record for '" +:+ name +:+ "' failed: " +:+ message.
Definition database_error_message : string :=
  "Database error during bulk creation: " +:+ unique_email_detail.

(** The instance the loop builds for a record. *)
Definition to_new (r : BulkCustomerInput.t) : Customer.new :=
  {| Customer.new_name := BulkCustomerInput.name r;
     Customer.new_email := BulkCustomerInput.email r;
     Customer.new_phone := BulkCustomerInput.phone r |}.

(** The rows a sequence of inserts adds to a table. *)
Fixpoint saved_rows (table : list Customer.t) (objs : list Customer.new)
  : list Customer.t :=
  match objs with
  | [] => []
  | c :: objs =>
      let row := Customer.saved (next_pk (Customer.id <$> table)) c in
      row :: saved_rows (table ++ [row]) objs
  end.

(** The database once an order of [customer] for the products with the keys
    [pks] is placed. *)
Definition placed (customer : Customer.t) (pks : list Z) (db : DB) : DB :=
  let new := next_pk (Order.id <$> crm_order db) in
  let rows := Product_rows pks db in
  {| crm_customer := crm_customer db;
     crm_product := crm_product db;
     crm_order :=
       crm_order db
       ++ [{| Order.id := new; Order.customer := Customer.id customer;
              Order.total_amount := sum_prices rows |}];
     crm_order_products :=
       crm_order_products db ++ ((fun p => (new, p)) <$> (Product.id <$> rows)) |}.

(** What one call of a mutation does to the database: nothing, or one of
    three extensions. *)
Inductive extends (db : DB) : DB -> Prop :=
| extends_none : extends db db
| extends_customers (objs : list Customer.new) :
    extends db
      (set_crm_customer (crm_customer db ++ saved_rows (crm_customer db) objs) db)
| extends_product (name : string) (price : Decimal) (stock : Z) :
    extends db
      (set_crm_product
         (crm_product db
          ++ [{| Product.id := next_pk (Product.id <$> crm_product db);
                 Product.name := name; Product.price := price;
                 Product.stock := stock |}]) db)
| extends_order (customer : Customer.t) (pks : list Z) :
    customer ∈ crm_customer db -> extends db (placed customer pks db).

(** ** The mutations (schema.py) *)

Section Resolvers.

(** What the framework brings: the addresses Django's [validate_email]
    accepts, and Python's [int] on strings ([None] where it raises). *)
Variable valid_email : string -> bool.
Variable py_int : string -> option Z.

Definition validate_email (email : string) : Py unit :=
  if valid_email email then mret tt
  else raise (ValidationError email_message "invalid").

(** The primary key of a lookup [pk=value] or [pk__in=values] is converted
    with [int]; the message of the [ValueError] writes the value with [%r]. *)
Definition AutoField_get_prep_value (value : string) : Py Z :=
  match py_int value with
  | Some n => mret n
  | None =>
      raise (ValueError ("Field 'id' expected a number but got "
                         +:+ py_repr value +:+ "."))
  end.

(** [int(s)] of a string; the message of its [ValueError] writes [repr(s)],
    cut after 200 characters. *)
Definition int (s : string) : Py Z :=
  match py_int s with
  | Some n => mret n
  | None =>
      raise (ValueError ("invalid literal for int() with base 10: "
                         +:+ String.substring 0 200 (py_repr s)))
  end.

(** [CreateCustomer.mutate] (schema.py, lines 50-79) *)
Definition CreateCustomer_mutate (input : CustomerInput.t) : Py CreateCustomer.t :=
  let name := CustomerInput.name input in
  let email := CustomerInput.email input in
  let phone := CustomerInput.phone input in
  try_except
    (validate_email email;;
     (if truthy phone then phone_validator phone else mret tt);;
     exists_ ← Customer_objects_filter_email_exists email;
     (if exists_ : bool
      then raise (ValidationError "Email already exists." "duplicate")
      else mret tt);;
     customer ← Customer_objects_create name email phone;
     let message := "Customer '" +:+ name +:+ "' created successfully." in
     mret {| CreateCustomer.customer := customer;
             CreateCustomer.message := message |})
    (fun e =>
       match e with
       | ValidationError e_message e_code =>
           code_list ← ValidationError_code_list e_message e_code;
           let error_message :=
             if bool_decide ("duplicate" ∈ code_list)
             then "Validation Error: Email '" +:+ email +:+ "' already exists."
             else "Validation Error: " +:+ e_message in
           raise (Exception error_message)
       | _ => raise e
       end).

(** One turn of the loop of [BulkCreateCustomers.mutate] (lines 104-132),
    on the locals [customers_to_create] and [validation_errors]. *)
Definition bulk_record (existing_emails : gset string)
    (customer_data : BulkCustomerInput.t)
    (locals : list Customer.new * list string)
  : Py (list Customer.new * list string) :=
  let '(customers_to_create, validation_errors) := locals in
  let name := BulkCustomerInput.name customer_data in
  let email := BulkCustomerInput.email customer_data in
  let phone := BulkCustomerInput.phone customer_data in
  '(error_message, customers_to_create) ←
    try_except
      (validate_email email;;
       let error_message :=
         if bool_decide (email ∈ existing_emails)
         then Some ("Record for '" +:+ name +:+ "' failed: Email '" +:+ email
                    +:+ "' already exists.")
         else None in
       (if truthy phone then phone_validator phone else mret tt);;
       mret (error_message,
             if negb (truthy error_message)
             then customers_to_create ++
                  [{| Customer.new_name := name; Customer.new_email := email;
                      Customer.new_phone := phone |}]
             else customers_to_create))
      (fun e =>
         match e with
         | ValidationError e_message _ =>
             mret (Some ("Record for '" +:+ name +:+ "' failed: " +:+ e_message),
                   customers_to_create)
         | _ => raise e
         end);
  mret (customers_to_create,
        if truthy error_message
        then validation_errors ++ [py_str error_message]
        else validation_errors).

(** [BulkCreateCustomers.mutate] (schema.py, lines 94-146) *)
Definition BulkCreateCustomers_mutate (input : list BulkCustomerInput.t)
  : Py BulkCreateCustomers.t :=
  let created_customers := [] in
  let validation_errors := [] in
  let customers_to_create := [] in
  let emails_to_check := BulkCustomerInput.email <$> input in
  existing ← Customer_objects_filter_email_in emails_to_check;
  let existing_emails : gset string := list_to_set existing in
  '(customers_to_create, validation_errors) ←
    for_loop (bulk_record existing_emails) input
             (customers_to_create, validation_errors);
  '(created_customers, validation_errors) ←
    match customers_to_create with
    | [] => mret (created_customers, validation_errors)
    | _ =>
        try_except
          (created ← atomic (Customer_objects_bulk_create customers_to_create);
           mret (created, validation_errors))
          (fun e =>
             mret (created_customers,
                   validation_errors ++
                   ["Database error during bulk creation: " +:+ exn_str e]))
    end;
  mret {| BulkCreateCustomers.customers := created_customers;
          BulkCreateCustomers.errors := validation_errors |}.

(** [CreateProduct.mutate] (schema.py, lines 162-178) *)
Definition CreateProduct_mutate (input : ProductInput.t) : Py CreateProduct.t :=
  let price := ProductInput.price input in
  let stock := ProductInput.stock input in
  (if bool_decide (price ≤ 0)
   then raise (Exception "Validation Error: Price must be a positive number.")
   else mret tt);;
  negative ← py_lt stock 0;
  (if negative : bool
   then raise (Exception "Validation Error: Stock cannot be negative.")
   else mret tt);;
  product ← Product_objects_create (ProductInput.name input) price stock;
  mret {| CreateProduct.product := product |}.

(** [[pid for pid in product_ids if int(pid) not in valid_ids]] *)
Fixpoint invalid_product_ids (valid_ids : gset Z) (product_ids : list string)
  : Py (list string) :=
  match product_ids with
  | [] => mret []
  | pid :: product_ids =>
      n ← int pid;
      rest ← invalid_product_ids valid_ids product_ids;
      mret (if bool_decide (n ∉ valid_ids) then pid :: rest else rest)
  end.

(** [Product.objects.filter(pk__in=product_ids)] *)
Definition Product_objects_filter_pk_in (product_ids : list string) : Py (list Z) :=
  for_each AutoField_get_prep_value product_ids.

(** [CreateOrder.mutate] (schema.py, lines 192-226), under
    [@transaction.atomic]. *)
Definition CreateOrder_mutate (input : OrderInput.t) : Py CreateOrder.t :=
  atomic
    (let customer_id := OrderInput.customer_id input in
     let product_ids := OrderInput.product_ids input in
     (if bool_decide (product_ids = [])
      then raise (Exception "Validation Error: Order must contain at least one product.")
      else mret tt);;
     customer ←
       try_except
         (pk ← AutoField_get_prep_value customer_id; Customer_objects_get pk)
         (fun e =>
            match e with
            | DoesNotExist =>
                raise (Exception ("Validation Error: Customer with ID '"
                                  +:+ customer_id +:+ "' not found."))
            | _ => raise e
            end);
     products ← Product_objects_filter_pk_in product_ids;
     count ← QuerySet_count products;
     (if bool_decide (count ≠ length product_ids)
      then
        rows ← QuerySet_iter products;
        let valid_ids : gset Z := list_to_set (Product.id <$> rows) in
        invalid_ids ← invalid_product_ids valid_ids product_ids;
        raise (Exception ("Validation Error: Invalid product ID(s) found: "
                          +:+ String.concat ", " invalid_ids))
      else mret tt);;
     order ← Order_objects_create customer;
     rows ← QuerySet_iter products;
     Order_products_set order rows;;
     total_amount ← Order_calculate_total order;
     let order := Order.with_total_amount total_amount order in
     Order_save order;;
     mret {| CreateOrder.order := order |}).

(** [Query.resolve_customer] (schema.py, lines 241-245), called with an
    [id]. *)
Definition resolve_customer (id : string) : Py (option Customer.t) :=
  try_except
    (pk ← AutoField_get_prep_value id;
     customer ← Customer_objects_get pk;
     mret (Some customer))
    (fun e =>
       match e with
       | DoesNotExist => mret None
       | _ => raise e
       end).

(** [Query.resolve_all_customers] (schema.py, lines 247-248) *)
Definition resolve_all_customers : Py (list Customer.t) :=
  db ← get_db; mret (crm_customer db).

(** The vocabulary of the statements that depends on the framework. *)

(** The checks [CreateCustomer.mutate] makes before it inserts: the format of
    the address, the pattern of a non-empty phone, the address not stored. *)
Definition accepted (db : DB) (email : string) (phone : option string) : bool :=
  valid_email email
  && (negb (truthy phone) || valid_phone (py_str phone))
  && negb (bool_decide (email ∈ emails db)).

(** The message a record adds to [errors], if any: the format of the address
    is checked first, then the pattern of a non-empty phone, then whether the
    address is stored. *)
Definition record_error (db : DB) (r : BulkCustomerInput.t) : option string :=
  let name := BulkCustomerInput.name r in
  let email := BulkCustomerInput.email r in
  let phone := BulkCustomerInput.phone r in
  if negb (valid_email email) then Some (record_failed_message name email_message)
  else if truthy phone && negb (valid_phone (py_str phone))
  then Some (record_failed_message name phone_message)
  else if bool_decide (email ∈ emails db)
  then Some (already_exists_message name email)
  else None.

(** A record passes when its address is well formed and not stored, and its
    phone is absent, empty, or matches the pattern. *)
Definition passes (db : DB) (r : BulkCustomerInput.t) : Prop :=
  accepted db (BulkCustomerInput.email r) (BulkCustomerInput.phone r)
  = true.

#[global] Instance passes_dec db r : Decision (passes db r).
Proof. unfold passes. apply _. Defined.

(** What the resolvers check of a customer: the format of the address, and
    the pattern of a phone that is neither absent nor empty. *)
Definition valid_customers (db : DB) : Prop :=
  forall c, c ∈ crm_customer db ->
    valid_email (Customer.email c) = true
    /\ (truthy (Customer.phone c) = true ->
        valid_phone (py_str (Customer.phone c)) = true).

(** The identifiers of a list, read as numbers. *)
Definition parsed (product_ids : list string) (pks : list Z) : Prop :=
  Forall2 (fun pid pk => py_int pid = Some pk) product_ids pks.

(** An identifier that is a number but not the key of a stored product. *)
Definition unknown_product (db : DB) (pid : string) : bool :=
  match py_int pid with
  | Some pk => bool_decide (pk ∉ Product.id <$> crm_product db)
  | None => false
  end.

(** The fields of [class Mutation] (schema.py, lines 251-255) and the
    database a call leaves behind. *)
Inductive mutation : Type :=
| create_customer (input : CustomerInput.t)
| bulk_create_customers (input : list BulkCustomerInput.t)
| create_product (input : ProductInput.t)
| create_order (input : OrderInput.t).

Definition Mutation_run (m : mutation) (db : DB) : DB :=
  match m with
  | create_customer input => (CreateCustomer_mutate input db).2
  | bulk_create_customers input =>
      (BulkCreateCustomers_mutate input db).2
  | create_product input => (CreateProduct_mutate input db).2
  | create_order input => (CreateOrder_mutate input db).2
  end.

(** Calls made one after the other. *)
Definition Mutation_runs (ms : list mutation) (db : DB) : DB :=
  foldl (fun db m => Mutation_run m db) db ms.

End Resolvers.

(** ** A concrete framework, for running the resolvers

    [ascii_int] reads an optional sign and decimal digits, as [int] does on
    such text.  [plain_email] accepts [user@host.tld] with a dot-atom user
    part and a dotted host name, the everyday case of Django's
    [EmailValidator]. *)
Fixpoint digits_value (acc : Z) (w : list ascii) : option Z :=
  match w with
  | [] => Some acc
  | c :: w =>
      if is_digit c
      then digits_value (10 * acc + Z.of_N (N_of_ascii c - 48)) w
      else None
  end.

Definition ascii_int (s : string) : option Z :=
  match list_ascii_of_string s with
  | [] => None
  | c :: w =>
      if bool_decide (c = "-"%char)
      then match w with [] => None | _ => Z.opp <$> digits_value 0 w end
      else if bool_decide (c = "+"%char)
      then match w with [] => None | _ => digits_value 0 w end
      else digits_value 0 (c :: w)
  end.

Definition is_alnum (c : ascii) : bool :=
  let n := N_of_ascii c in
  (((48 <=? n) && (n <=? 57)) || ((65 <=? n) && (n <=? 90))
   || ((97 <=? n) && (n <=? 122)))%N.

Definition is_atext (c : ascii) : bool :=
  is_alnum c
  || bool_decide (c ∈ list_ascii_of_string "-!#$%&'*+/=?^_`{}|~").

Definition user_regex : regex :=
  let atom := Seq (Class is_atext) (Star (Class is_atext)) in
  Seq atom (Star (Seq (chr ".") atom)).

Definition domain_regex : regex :=
  let alnum := Class is_alnum in
  let inner := Class (fun c => is_alnum c || bool_decide (c = "-"%char)) in
  let label := Alt alnum (Seq alnum (Seq (Star inner) alnum)) in
  Seq (Seq label (chr ".")) (Seq (Star (Seq label (chr "."))) (Seq inner (Seq (Star inner) alnum))).

(** [value.rsplit("@", 1)]: the text before and after the last [@]. *)
Fixpoint rsplit_at (w : list ascii) : option (list ascii * list ascii) :=
  match w with
  | [] => None
  | c :: w =>
      match rsplit_at w with
      | Some (u, d) => Some (c :: u, d)
      | None => if bool_decide (c = "@"%char) then Some ([], w) else None
      end
  end.

Definition plain_email (s : string) : bool :=
  match rsplit_at (list_ascii_of_string s) with
  | Some (user_part, domain_part) =>
      matches user_regex user_part && matches domain_regex domain_part
  | None => false
  end.

(** ** Sample data *)

Definition empty_db : DB :=
  {| crm_customer := []; crm_product := []; crm_order := [];
     crm_order_products := [] |}.

Definition ann : Customer.t :=
  {| Customer.id := 1; Customer.name := "Ann"; Customer.email := "ann@x.org";
     Customer.phone := None |}.

Definition pen : Product.t :=
  {| Product.id := 1; Product.name := "pen"; Product.price := 150;
     Product.stock := 0 |}.

Definition ink : Product.t :=
  {| Product.id := 2; Product.name := "ink"; Product.price := 250;
     Product.stock := 3 |}.

(** A customer whose phone begins with a capital letter. *)
Definition abe : Customer.t :=
  {| Customer.id := 1; Customer.name := "Abe"; Customer.email := "abe@x.org";
     Customer.phone := Some "Ab-1" |}.

(** One customer and two products, no order. *)
Definition shop_db : DB :=
  {| crm_customer := [ann]; crm_product := [pen; ink]; crm_order := [];
     crm_order_products := [] |}.

(** The same shop once Ann has ordered a pen and an ink. *)
Definition order_db : DB :=
  {| crm_customer := [ann]; crm_product := [pen; ink];
     crm_order :=
       [{| Order.id := 1; Order.customer := 1; Order.total_amount := 400 |}];
     crm_order_products := [(1, 1); (1, 2)] |}.

(** * Properties *)

(** ** Running monadic code *)

Lemma run_bind {A B} (m : Py A) (f : A -> Py B) db :
  (m ≫= f) db =
  match m db with
  | (Return a, db') => f a db'
  | (Raise e, db') => (Raise e, db')
  end.
Proof. reflexivity. Qed.

Lemma run_ret {A} (a : A) db : (mret a : Py A) db = (Return a, db).
Proof. reflexivity. Qed.

(** ** The matcher and the language *)

Lemma lang_void_inv (w : list ascii) : lang Void w <-> False.
Proof. split; inversion 1. Qed.

Lemma lang_eps_inv (w : list ascii) : lang Eps w <-> w = [].
Proof. split; [by inversion 1 | intros ->; constructor]. Qed.

Lemma lang_class_inv (p : ascii -> bool) (w : list ascii) :
  lang (Class p) w <-> exists c, w = [c] /\ p c = true.
Proof.
  split.
  - inversion 1; subst. by eexists.
  - intros (c & -> & Hp). by constructor.
Qed.

Lemma lang_seq_inv (r s : regex) (w : list ascii) :
  lang (Seq r s) w <-> exists u v, w = u ++ v /\ lang r u /\ lang s v.
Proof.
  split.
  - inversion 1; subst. by do 2 eexists.
  - intros (u & v & -> & Hu & Hv). by constructor.
Qed.

Lemma lang_alt_inv (r s : regex) (w : list ascii) :
  lang (Alt r s) w <-> lang r w \/ lang s w.
Proof.
  split.
  - inversion 1; subst; auto.
  - intros [H|H]; [by apply lang_alt_l | by apply lang_alt_r].
Qed.

Lemma lang_star_cons_inv (r : regex) (c : ascii) (w : list ascii) :
  lang (Star r) (c :: w)
  <-> exists u v, w = u ++ v /\ lang r (c :: u) /\ lang (Star r) v.
Proof.
  split.
  - inversion 1; subst. by do 2 eexists.
  - intros (u & v & -> & Hu & Hv). by apply lang_star_cons.
Qed.

Lemma nullable_spec (r : regex) : nullable r = true <-> lang r [].
Proof.
  induction r as [| |p|r IHr s IHs|r IHr s IHs|r IHr]; simpl.
  - by rewrite lang_void_inv.
  - by rewrite lang_eps_inv.
  - rewrite lang_class_inv. split; [done | by intros (c & [=] & _)].
  - rewrite andb_true_iff, IHr, IHs, lang_seq_inv. split.
    + intros [Hr Hs]. by exists [], [].
    + intros (u & v & Heq & Hu & Hv). symmetry in Heq.
      by apply app_eq_nil in Heq as [-> ->].
  - by rewrite orb_true_iff, IHr, IHs, lang_alt_inv.
  - split; [constructor | done].
Qed.

Lemma lang_seq_cons (r s : regex) (c : ascii) (w : list ascii) :
  lang (Seq r s) (c :: w)
  <-> (lang r [] /\ lang s (c :: w))
      \/ exists u v, w = u ++ v /\ lang r (c :: u) /\ lang s v.
Proof.
  rewrite lang_seq_inv. split.
  - intros (u & v & Heq & Hu & Hv). destruct u as [|a u]; simpl in Heq.
    + subst v. by left.
    + injection Heq as <- ->. right. by exists u, v.
  - intros [[Hr Hs] | (u & v & -> & Hu & Hv)].
    + by exists [], (c :: w).
    + by exists (c :: u), v.
Qed.

Lemma deriv_spec (c : ascii) (r : regex) (w : list ascii) :
  lang (deriv c r) w <-> lang r (c :: w).
Proof.
  revert w. induction r as [| |p|r IHr s IHs|r IHr s IHs|r IHr]; intros w; simpl.
  - by rewrite !lang_void_inv.
  - by rewrite lang_void_inv, lang_eps_inv.
  - rewrite lang_class_inv. destruct (p c) eqn:Hp.
    + rewrite lang_eps_inv. split.
      * intros ->. by exists c.
      * by intros (c' & [= <- ->] & _).
    + rewrite lang_void_inv. split; [done|].
      intros (c' & [= <- ->] & Hp'). congruence.
  - assert (lang (Seq (deriv c r) s) w <->
            exists u v, w = u ++ v /\ lang r (c :: u) /\ lang s v) as Hseq.
    { rewrite lang_seq_inv. by setoid_rewrite IHr. }
    rewrite lang_seq_cons. destruct (nullable r) eqn:Hn.
    + rewrite lang_alt_inv, Hseq, IHs, <- nullable_spec, Hn. tauto.
    + rewrite Hseq, <- nullable_spec, Hn. split; [by right|].
      by intros [[? _]|?].
  - by rewrite !lang_alt_inv, IHr, IHs.
  - rewrite lang_seq_inv, lang_star_cons_inv. by setoid_rewrite IHr.
Qed.

(** The matcher decides membership in the language. *)
Lemma matches_spec (r : regex) (w : list ascii) :
  matches r w = true <-> lang r w.
Proof.
  revert r. induction w as [|c w IH]; intros r; simpl.
  - apply nullable_spec.
  - by rewrite IH, deriv_spec.
Qed.

(** A phone number is accepted when it is in the language of the pattern,
    with or without a final newline. *)
Lemma valid_phone_spec (phone : string) :
  valid_phone phone = true
  <-> exists w, lang phone_regex w
                /\ (list_ascii_of_string phone = w
                    \/ list_ascii_of_string phone = w ++ [newline]).
Proof.
  unfold valid_phone, search_anchored. rewrite matches_spec, lang_seq_inv.
  split.
  - intros (u & v & -> & Hu & Hv). exists u. split; [done|].
    apply lang_alt_inv in Hv as [Hv|Hv].
    + apply lang_eps_inv in Hv as ->. left. by rewrite app_nil_r.
    + apply lang_class_inv in Hv as (c & -> & Hc).
      apply bool_decide_eq_true in Hc as ->. by right.
  - intros (w & Hw & [-> | ->]).
    + exists w, []. rewrite app_nil_r. split; [done|]. split; [done|].
      apply lang_alt_l. constructor.
    + exists w, [newline]. split; [done|]. split; [done|].
      apply lang_alt_r. constructor. by apply bool_decide_eq_true.
Qed.

(** ** The phone pattern filter *)

(** C7. The filter [phone_pattern] of [CustomerFilter] does not do what the
    comments of the code say. [PhonePatternFilter] derives from [FilterSet],
    not from [Filter]: the statement that builds it hands [field_name] to
    [FilterSet.__init__], which has no such parameter, and raises [TypeError]
    when the module is imported, so the filter is never applied. And the
    lookup in the body of its method is not case-sensitive: asked for [ab], it
    keeps the customer whose phone is [Ab-1], which does not start with
    [ab]. *)
Theorem CustomerFilter_phone_pattern_fails :
  (forall callee,
      CustomerFilter_phone_pattern callee
      = Raise (TypeError (callee
                          +:+ "() got an unexpected keyword argument 'field_name'")))
  /\ PhonePatternFilter_filter [abe] "phone" (Some "ab") = [abe]
  /\ Customer.phone abe = Some "Ab-1"
  /\ String.prefix "ab" "Ab-1" = false.
Proof. repeat split. Qed.

Ltac py_run :=
  unfold mbind, mret, Py_bind, Py_ret, raise, get_db in *; cbn in *.

(** ** [CreateCustomer] *)

Section CustomerProperties.
Variable valid_email : string -> bool.

(** The resolver in one equation: it inserts the customer when the three
    checks pass; when one fails, the handler of the [ValidationError] reads
    [e.code_list] and the call ends in that [AttributeError]. *)
Lemma CreateCustomer_run (input : CustomerInput.t) (db : DB) :
  let name := CustomerInput.name input in
  let email := CustomerInput.email input in
  let phone := CustomerInput.phone input in
  let row := {| Customer.id := next_pk (Customer.id <$> crm_customer db);
                Customer.name := name; Customer.email := email;
                Customer.phone := phone |} in
  CreateCustomer_mutate valid_email input db
  = if accepted valid_email db email phone
    then (Return {| CreateCustomer.customer := row;
                    CreateCustomer.message :=
                      "Customer '" +:+ name +:+ "' created successfully." |},
          set_crm_customer (crm_customer db ++ [row]) db)
    else (Raise code_list_error, db).
Proof.
  intros name email phone row.
  unfold CreateCustomer_mutate, accepted, try_except, validate_email, phone_validator.
  fold name email phone.
  unfold Customer_objects_filter_email_exists, Customer_objects_create,
    Customer_insert, ValidationError_code_list.
  py_run.
  destruct (valid_email email); [|done]. cbn.
  destruct (truthy phone); cbn.
  - destruct (valid_phone (py_str phone)); [|done]. cbn.
    repeat case_bool_decide; done.
  - repeat case_bool_decide; done.
Qed.

(** A request that passes the three checks stores the customer with exactly
    the name, address and phone given, under a fresh key, and returns it with
    the message of success. *)
Lemma CreateCustomer_created (input : CustomerInput.t) (db : DB) :
  let name := CustomerInput.name input in
  let email := CustomerInput.email input in
  let phone := CustomerInput.phone input in
  let row := {| Customer.id := next_pk (Customer.id <$> crm_customer db);
                Customer.name := name; Customer.email := email;
                Customer.phone := phone |} in
  accepted valid_email db email phone = true ->
  CreateCustomer_mutate valid_email input db
  = (Return {| CreateCustomer.customer := row;
               CreateCustomer.message :=
                 "Customer '" +:+ name +:+ "' created successfully." |},
     set_crm_customer (crm_customer db ++ [row]) db).
Proof.
  intros name email phone row H. rewrite CreateCustomer_run.
  fold name email phone row. by rewrite H.
Qed.

(** A request whose address is stored creates nothing; the call ends in the
    [AttributeError] of the handler. *)
Lemma CreateCustomer_stored_email (input : CustomerInput.t) (db : DB) :
  CustomerInput.email input ∈ emails db ->
  CreateCustomer_mutate valid_email input db = (Raise code_list_error, db).
Proof.
  intros H. rewrite CreateCustomer_run. cbv zeta. unfold accepted.
  by rewrite (bool_decide_eq_true_2 _ H), andb_false_r.
Qed.

(** C5, as amended. A malformed address, or a non-empty phone that does not
    match the pattern, makes [CreateCustomer] raise and leave the database as
    it was; a request without phone (left out, null or empty) with a
    well-formed address that is not stored yet succeeds, and stores and
    returns the customer as given. *)
Theorem CreateCustomer_format_checks (input : CustomerInput.t) (db : DB) :
  let name := CustomerInput.name input in
  let email := CustomerInput.email input in
  let phone := CustomerInput.phone input in
  let row := {| Customer.id := next_pk (Customer.id <$> crm_customer db);
                Customer.name := name; Customer.email := email;
                Customer.phone := phone |} in
  (valid_email email = false
   \/ (truthy phone = true /\ valid_phone (py_str phone) = false) ->
   raised (CreateCustomer_mutate valid_email input db).1
   /\ (CreateCustomer_mutate valid_email input db).2 = db)
  /\ (truthy phone = false -> valid_email email = true -> email ∉ emails db ->
      CreateCustomer_mutate valid_email input db
      = (Return {| CreateCustomer.customer := row;
                   CreateCustomer.message :=
                     "Customer '" +:+ name +:+ "' created successfully." |},
         set_crm_customer (crm_customer db ++ [row]) db)).
Proof.
  intros name email phone row. rewrite CreateCustomer_run.
  fold name email phone row. unfold accepted. split.
  - intros [-> | [-> ->]]; [done|]. by rewrite andb_false_r.
  - intros -> -> Hfresh. by rewrite (bool_decide_eq_false_2 _ Hfresh).
Qed.

End CustomerProperties.

(** ** Invariants of the database *)

Create HintDb preserves.

Section Preservation.
Context (P : DB -> Prop).

Lemma preserves_ret {A} (a : A) : preserves P (mret a).
Proof. by intros db H. Qed.

Lemma preserves_raise {A} (e : exn) : preserves P (raise e : Py A).
Proof. by intros db H. Qed.

Lemma preserves_get_db : preserves P get_db.
Proof. by intros db H. Qed.

Lemma preserves_bind {A B} (m : Py A) (f : A -> Py B) :
  preserves P m -> (forall a, preserves P (f a)) -> preserves P (m ≫= f).
Proof.
  intros Hm Hf db H. rewrite run_bind.
  specialize (Hm db H). destruct (m db) as [[a|e] db']; [by apply Hf | done].
Qed.

Lemma preserves_try_except {A} (body : Py A) (handler : exn -> Py A) :
  preserves P body -> (forall e, preserves P (handler e)) ->
  preserves P (try_except body handler).
Proof.
  intros Hb Hh db H. unfold try_except.
  specialize (Hb db H). destruct (body db) as [[a|e] db']; [done | by apply Hh].
Qed.

Lemma preserves_atomic {A} (body : Py A) :
  preserves P body -> preserves P (atomic body).
Proof.
  intros Hb db H. unfold atomic.
  specialize (Hb db H). by destruct (body db) as [[a|e] db'].
Qed.

Lemma preserves_if {A} (b : bool) (m1 m2 : Py A) :
  preserves P m1 -> preserves P m2 -> preserves P (if b then m1 else m2).
Proof. by destruct b. Qed.

Lemma preserves_for_each {A B} (f : A -> Py B) (l : list A) :
  (forall a, preserves P (f a)) -> preserves P (for_each f l).
Proof.
  intros Hf. induction l as [|a l IH]; simpl.
  - apply preserves_ret.
  - apply preserves_bind; [done|]. intros b.
    apply preserves_bind; [done|]. intros bs. apply preserves_ret.
Qed.

Lemma preserves_for_loop {A S} (body : A -> S -> Py S) (l : list A) (s : S) :
  (forall a s, preserves P (body a s)) -> preserves P (for_loop body l s).
Proof.
  intros Hb. revert s. induction l as [|a l IH]; intros s; simpl.
  - apply preserves_ret.
  - apply preserves_bind; [done|]. intros s'. apply IH.
Qed.

End Preservation.

#[export] Hint Resolve preserves_ret preserves_raise preserves_get_db
  preserves_try_except preserves_atomic preserves_if preserves_for_each
  preserves_for_loop : preserves.
#[export] Hint Extern 2 (preserves _ (_ ≫= _)) =>
  apply preserves_bind; [|intros ?] : preserves.
#[export] Hint Extern 3 (preserves _ (match ?x with _ => _ end)) =>
  destruct x : preserves.

Lemma Customer_insert_unique (c : Customer.new) :
  preserves unique_emails (Customer_insert c).
Proof.
  intros db H. unfold Customer_insert. case_bool_decide as Hin; [done|].
  unfold unique_emails, emails in *. cbn. rewrite fmap_app. cbn.
  apply NoDup_app. repeat split; [done | | apply NoDup_singleton].
  intros e He ->%list_elem_of_singleton. done.
Qed.

Lemma Product_objects_create_unique name price stock :
  preserves unique_emails (Product_objects_create name price stock).
Proof. intros db H. unfold Product_objects_create. by destruct stock. Qed.

Lemma Order_objects_create_unique customer :
  preserves unique_emails (Order_objects_create customer).
Proof. by intros db H. Qed.

Lemma Order_products_set_unique order objs :
  preserves unique_emails (Order_products_set order objs).
Proof. by intros db H. Qed.

Lemma Order_save_unique order : preserves unique_emails (Order_save order).
Proof. intros db H. unfold Order_save. by case_bool_decide. Qed.

#[export] Hint Resolve Customer_insert_unique Product_objects_create_unique
  Order_objects_create_unique Order_products_set_unique Order_save_unique
  : preserves.

Section Invariant.
Variable valid_email : string -> bool.
Variable py_int : string -> option Z.

Lemma CreateCustomer_unique input :
  preserves unique_emails (CreateCustomer_mutate valid_email input).
Proof.
  unfold CreateCustomer_mutate, validate_email, phone_validator,
    Customer_objects_filter_email_exists, Customer_objects_create,
    ValidationError_code_list.
  eauto 20 with preserves.
Qed.

Lemma BulkCreateCustomers_unique input :
  preserves unique_emails (BulkCreateCustomers_mutate valid_email input).
Proof.
  unfold BulkCreateCustomers_mutate, Customer_objects_filter_email_in,
    Customer_objects_bulk_create.
  apply preserves_bind; [eauto with preserves|]. intros existing.
  apply preserves_bind.
  - apply preserves_for_loop. intros r [to_create errors].
    unfold bulk_record, validate_email, phone_validator.
    eauto 20 with preserves.
  - intros [to_create errors]. eauto 20 with preserves.
Qed.

Lemma CreateProduct_unique input :
  preserves unique_emails (CreateProduct_mutate input).
Proof.
  unfold CreateProduct_mutate, py_lt. eauto 20 with preserves.
Qed.

Lemma invalid_product_ids_unique valid_ids product_ids :
  preserves unique_emails (invalid_product_ids py_int valid_ids product_ids).
Proof.
  induction product_ids as [|pid l IH]; simpl; unfold int;
    eauto 20 with preserves.
Qed.

Lemma CreateOrder_unique input :
  preserves unique_emails (CreateOrder_mutate py_int input).
Proof.
  pose proof invalid_product_ids_unique.
  unfold CreateOrder_mutate, Product_objects_filter_pk_in,
    AutoField_get_prep_value, Customer_objects_get, QuerySet_count,
    QuerySet_iter, Order_calculate_total.
  eauto 30 with preserves.
Qed.

(** C6. From a database in which no two customers share an email, every
    mutation leads to a database in which no two customers share an
    email. *)
Theorem Mutation_unique_emails (m : mutation) (db : DB) :
  unique_emails db -> unique_emails (Mutation_run valid_email py_int m db).
Proof.
  intros H. destruct m; simpl.
  - by apply CreateCustomer_unique.
  - by apply BulkCreateCustomers_unique.
  - by apply CreateProduct_unique.
  - by apply CreateOrder_unique.
Qed.

End Invariant.

(** ** [CreateOrder] *)

Section OrderProperties.
Variable py_int : string -> option Z.

Lemma filter_pk_in_step (pid : string) (l : list string) (db : DB) :
  Product_objects_filter_pk_in py_int (pid :: l) db
  = match py_int pid with
    | Some n =>
        match Product_objects_filter_pk_in py_int l db with
        | (Return pks, db') => (Return (n :: pks), db')
        | (Raise e, db') => (Raise e, db')
        end
    | None =>
        (Raise (ValueError ("Field 'id' expected a number but got "
                            +:+ py_repr pid +:+ ".")), db)
    end.
Proof.
  unfold Product_objects_filter_pk_in. cbn [for_each]. rewrite run_bind.
  unfold AutoField_get_prep_value at 1. by destruct (py_int pid).
Qed.

(** Building the queryset converts every identifier; it raises when one is
    not a number, and never touches the database. *)
Lemma filter_pk_in_run (product_ids : list string) (db : DB) :
  (exists pks, parsed py_int product_ids pks
     /\ Product_objects_filter_pk_in py_int product_ids db = (Return pks, db))
  \/ (exists e pid, pid ∈ product_ids /\ py_int pid = None
     /\ Product_objects_filter_pk_in py_int product_ids db = (Raise e, db)).
Proof.
  induction product_ids as [|pid l IH].
  - left. exists []. split; [constructor | done].
  - rewrite filter_pk_in_step. destruct (py_int pid) as [n|] eqn:Hn.
    + destruct IH as [(pks & Hpks & ->) | (e & bad & Hbad & Hnone & ->)].
      * left. exists (n :: pks). split; [by constructor | done].
      * right. exists e, bad. split; [by right | done].
    + right. do 2 eexists. split; [by left | done].
Qed.

Lemma invalid_product_ids_run (valid_ids : gset Z) (product_ids : list string)
    (pks : list Z) (db : DB) :
  parsed py_int product_ids pks ->
  exists invalid,
    invalid_product_ids py_int valid_ids product_ids db = (Return invalid, db)
    /\ ((forall n, n ∈ pks -> n ∈ valid_ids) -> invalid = []).
Proof.
  induction 1 as [|pid n l pks Hn _ IH].
  - by exists [].
  - destruct IH as (invalid & Hrun & Hnil).
    cbn [invalid_product_ids]. unfold int at 1. rewrite Hn.
    rewrite run_bind, run_ret, run_bind, Hrun. cbn.
    eexists. split; [done|]. intros Hall.
    rewrite bool_decide_eq_false_2.
    + apply Hnil. intros m Hm. apply Hall. by right.
    + intros Hnot. apply Hnot, Hall. by left.
Qed.

(** When as many rows are found as identifiers were given, the identifiers
    are pairwise distinct and each names a stored product. *)
Lemma count_matches (db : DB) (pks : list Z) :
  NoDup (Product.id <$> crm_product db) ->
  length (Product_rows pks db) = length pks ->
  NoDup pks /\ forall pk, pk ∈ pks -> pk ∈ Product.id <$> crm_product db.
Proof.
  intros Hpk Hlen. unfold Product_rows in Hlen.
  set (rows := filter (fun p => Product.id p ∈ pks) (crm_product db)) in *.
  assert (NoDup (Product.id <$> rows)) as Hnd.
  { apply (sublist_NoDup _ (Product.id <$> crm_product db)); [done|].
    apply fmap_sublist, sublist_filter. }
  assert (forall x, x ∈ Product.id <$> rows -> x ∈ pks) as Hsub.
  { intros x (p & -> & Hp)%list_elem_of_fmap.
    by apply list_elem_of_filter in Hp as [? _]. }
  assert ((Product.id <$> rows) ≡ₚ pks) as Hperm.
  { apply submseteq_length_Permutation; [by apply NoDup_submseteq|].
    rewrite length_fmap. lia. }
  split; [by rewrite <- Hperm|].
  intros pk Hin. rewrite <- Hperm in Hin.
  apply list_elem_of_fmap in Hin as (p & -> & Hp).
  apply list_elem_of_filter in Hp as [_ Hp]. by apply list_elem_of_fmap_2.
Qed.

(** The resolver, check by check. *)
Lemma CreateOrder_run (input : OrderInput.t) (db : DB) :
  let customer_id := OrderInput.customer_id input in
  let product_ids := OrderInput.product_ids input in
  CreateOrder_mutate py_int input db
  = if bool_decide (product_ids = []) then (Raise (Exception no_products_message), db)
    else
      match py_int customer_id with
      | None =>
          (Raise (ValueError ("Field 'id' expected a number but got "
                              +:+ py_repr customer_id +:+ ".")), db)
      | Some pk =>
          match filter (fun c => Customer.id c = pk) (crm_customer db) with
          | [] =>
              (Raise (Exception ("Validation Error: Customer with ID '"
                                 +:+ customer_id +:+ "' not found.")), db)
          | customer :: _ =>
              match Product_objects_filter_pk_in py_int product_ids db with
              | (Raise e, _) => (Raise e, db)
              | (Return pks, _) =>
                  if bool_decide (length (Product_rows pks db) ≠ length product_ids)
                  then
                    match invalid_product_ids py_int
                            (list_to_set (Product.id <$> Product_rows pks db))
                            product_ids db with
                    | (Return invalid, _) =>
                        (Raise (Exception (invalid_products_message
                                           +:+ String.concat ", " invalid)), db)
                    | (Raise e, _) => (Raise e, db)
                    end
                  else atomic (place_order customer pks) db
              end
          end
      end.
Proof.
  intros customer_id product_ids.
  unfold CreateOrder_mutate, atomic. fold customer_id product_ids.
  rewrite run_bind. case_bool_decide as Hnil; [done|].
  rewrite run_ret, run_bind. unfold try_except. rewrite run_bind.
  unfold AutoField_get_prep_value at 1.
  destruct (py_int customer_id) as [pk|]; [|done].
  rewrite run_ret. unfold Customer_objects_get. rewrite run_bind. cbn [get_db].
  destruct (filter _ (crm_customer db)) as [|customer others]; [done|].
  rewrite run_ret, run_bind.
  destruct (filter_pk_in_run product_ids db)
    as [(pks & Hpks & ->) | (e & bad & _ & _ & ->)]; [|done].
  rewrite run_bind. unfold QuerySet_count at 1. rewrite run_bind. cbn [get_db].
  rewrite run_ret, run_bind.
  case_bool_decide as Hcount.
  - rewrite run_bind. unfold QuerySet_iter at 1. rewrite run_bind. cbn [get_db].
    rewrite run_ret, run_bind.
    destruct (invalid_product_ids_run
                (list_to_set (Product.id <$> Product_rows pks db))
                product_ids pks db Hpks) as (invalid & -> & _).
    done.
  - rewrite run_ret. done.
Qed.

End OrderProperties.

(** ** Placing an order *)

Lemma next_pk_above (pks : list Z) (pk : Z) : pk ∈ pks -> pk < next_pk pks.
Proof.
  unfold next_pk. induction pks as [|x l IH]; [by intros ?%elem_of_nil|].
  intros [->|Hin]%elem_of_cons; simpl; [lia|]. specialize (IH Hin). lia.
Qed.

Lemma next_pk_fresh (pks : list Z) : next_pk pks ∉ pks.
Proof. intros H%next_pk_above. lia. Qed.

Lemma remove_dups_NoDup {A} `{EqDecision A} (l : list A) :
  NoDup l -> remove_dups l = l.
Proof.
  induction 1 as [|x l Hx _ IH]; [done|].
  simpl. rewrite IH. by destruct (decide_rel elem_of x l).
Qed.

Lemma filter_none {A} (P : A -> Prop) `{forall x, Decision (P x)} (l : list A) :
  (forall x, x ∈ l -> ~ P x) -> filter P l = [].
Proof.
  induction l as [|x l IH]; [done|]. intros Hl.
  rewrite filter_cons_False by (apply Hl; by left).
  apply IH. intros y Hy. apply Hl. by right.
Qed.

(** A primary key selects its row and nothing else. *)
Lemma filter_pk_unique (products : list Product.t) (row : Product.t) :
  NoDup (Product.id <$> products) -> row ∈ products ->
  filter (fun p => Product.id p = Product.id row) products = [row].
Proof.
  induction products as [|p l IH]; [by intros _ ?%elem_of_nil|].
  rewrite fmap_cons, NoDup_cons. intros [Hp Hl] Hin.
  rewrite filter_cons. apply elem_of_cons in Hin as [<-|Hin].
  - rewrite decide_True by done. f_equal.
    apply filter_none. intros q Hq Heq.
    apply Hp. rewrite <- Heq. by apply list_elem_of_fmap_2.
  - rewrite decide_False; [by apply IH|].
    intros Heq. apply Hp. rewrite Heq. by apply list_elem_of_fmap_2.
Qed.

Lemma related_products_fresh (db : DB) (rows : list Order.t) :
  (forall r, r ∈ crm_order_products db -> r.1 ∈ Order.id <$> crm_order db) ->
  related_products (next_pk (Order.id <$> crm_order db))
    (set_crm_order rows db) = [].
Proof.
  intros Hfk. unfold related_products. cbn.
  induction (crm_order_products db) as [|r l IH]; [done|].
  cbn. rewrite decide_False.
  - apply IH. intros r' Hr'. apply Hfk. by right.
  - intros Heq. apply (next_pk_fresh (Order.id <$> crm_order db)).
    rewrite <- Heq. apply Hfk. by left.
Qed.

Lemma filter_all {A} (P : A -> Prop) `{forall x, Decision (P x)} (l : list A) :
  (forall x, x ∈ l -> P x) -> filter P l = l.
Proof.
  induction l as [|x l IH]; [done|]. intros Hl.
  rewrite filter_cons_True by (apply Hl; by left).
  f_equal. apply IH. intros y Hy. apply Hl. by right.
Qed.

(** The links of a new order lead back to the rows they were made from. *)
Lemma links_join (products rows : list Product.t) (order_id : Z) :
  NoDup (Product.id <$> products) -> (forall p, p ∈ rows -> p ∈ products) ->
  ((fun p => (order_id, p)) <$> (Product.id <$> rows)) ≫=
    (fun r : Z * Z =>
       if decide (r.1 = order_id)
       then filter (fun p => Product.id p = r.2) products
       else [])
  = rows.
Proof.
  intros Hpk. induction rows as [|row rows IH]; intros Hin; [done|].
  cbn. rewrite decide_True by done.
  rewrite (filter_pk_unique products row Hpk) by (apply Hin; by left).
  cbn. f_equal. apply IH. intros p Hp. apply Hin. by right.
Qed.

Lemma fmap_fixed {A} (f : A -> A) (l : list A) :
  (forall x, x ∈ l -> f x = x) -> f <$> l = l.
Proof.
  induction l as [|x l IH]; [done|]. intros Hl. cbn.
  rewrite Hl by by left. f_equal. apply IH. intros y Hy. apply Hl. by right.
Qed.

Section PlaceOrder.
Context (customer : Customer.t) (pks : list Z) (db : DB).
Hypothesis Hwf : well_formed db.

Let new : Z := next_pk (Order.id <$> crm_order db).
Let rows : list Product.t := Product_rows pks db.
Let order0 : Order.t :=
  {| Order.id := new; Order.customer := Customer.id customer;
     Order.total_amount := 0 |}.
Let order : Order.t := Order.with_total_amount (sum_prices rows) order0.
Let db1 : DB := set_crm_order (crm_order db ++ [order0]) db.
Let links : list (Z * Z) := (fun p => (new, p)) <$> (Product.id <$> rows).
Let db2 : DB := set_crm_order_products (crm_order_products db ++ links) db1.

Lemma links_fresh (r : Z * Z) : r ∈ crm_order_products db -> r.1 <> new.
Proof.
  intros Hr Heq. apply (next_pk_fresh (Order.id <$> crm_order db)).
  fold new. rewrite <- Heq. by apply Hwf.
Qed.

Lemma rows_NoDup : NoDup (Product.id <$> rows).
Proof.
  apply (sublist_NoDup _ (Product.id <$> crm_product db)); [apply Hwf|].
  apply fmap_sublist, sublist_filter.
Qed.

Lemma Order_products_set_run :
  Order_products_set order0 rows db1 = (Return tt, db2).
Proof.
  unfold Order_products_set. f_equal. unfold db2. f_equal.
  change (Order.id order0) with new.
  change (related_products new db1)
    with (related_products (next_pk (Order.id <$> crm_order db))
            (set_crm_order (crm_order db ++ [order0]) db)).
  rewrite related_products_fresh by apply Hwf.
  rewrite (remove_dups_NoDup _ rows_NoDup).
  change (crm_order_products db1) with (crm_order_products db).
  rewrite (filter_all _ (crm_order_products db))
    by (intros r Hr [Heq _]; by apply (links_fresh r)).
  rewrite (filter_all _ (Product.id <$> rows))
    by (intros; apply not_elem_of_nil).
  done.
Qed.

Lemma related_products_placed : related_products new db2 = rows.
Proof.
  unfold related_products.
  change (crm_order_products db2) with (crm_order_products db ++ links).
  change (crm_product db2) with (crm_product db).
  rewrite bind_app.
  assert (forall l : list (Z * Z), (forall r, r ∈ l -> r.1 <> new) ->
            l ≫= (fun r => if decide (r.1 = new)
                           then filter (fun p => Product.id p = r.2) (crm_product db)
                           else []) = []) as Hnone.
  { induction l as [|r l IH]; [done|]. intros Hl. cbn.
    rewrite decide_False by (apply Hl; by left).
    apply IH. intros r' Hr'. apply Hl. by right. }
  rewrite (Hnone _ links_fresh). cbn [app].
  apply links_join; [apply Hwf|].
  intros p Hp. by apply list_elem_of_filter in Hp as [_ ?].
Qed.

Lemma Order_calculate_total_run :
  Order_calculate_total order0 db2 = (Return (sum_prices rows), db2).
Proof.
  unfold Order_calculate_total. rewrite run_bind. cbn [get_db].
  change (Order.id order0) with new. rewrite related_products_placed.
  by destruct rows.
Qed.

Lemma Order_save_run :
  Order_save order db2
  = (Return tt, set_crm_order (crm_order db ++ [order]) db2).
Proof.
  unfold Order_save.
  change (crm_order db2) with (crm_order db ++ [order0]).
  change (Order.id order) with new.
  rewrite bool_decide_eq_true_2.
  2:{ rewrite fmap_app. apply elem_of_app. right. by left. }
  do 2 f_equal. rewrite fmap_app. cbn. rewrite decide_True by done.
  f_equal.
  assert (forall r, r ∈ crm_order db -> Order.id r <> new) as Hold.
  { intros r Hr Heq. apply (next_pk_fresh (Order.id <$> crm_order db)).
    fold new. rewrite <- Heq. by apply list_elem_of_fmap_2. }
  apply fmap_fixed. intros r Hr. by rewrite decide_False by by apply Hold.
Qed.

Lemma place_order_run :
  place_order customer pks db
  = (Return {| CreateOrder.order := order |},
     set_crm_order (crm_order db ++ [order]) db2).
Proof.
  unfold place_order. rewrite run_bind.
  change (Order_objects_create customer db) with (Return order0, db1).
  cbv beta iota. rewrite run_bind.
  change (QuerySet_iter pks db1) with (Return rows, db1).
  cbv beta iota. rewrite run_bind, Order_products_set_run.
  cbv beta iota. rewrite run_bind, Order_calculate_total_run.
  cbv beta iota. rewrite run_bind.
  change (Order.with_total_amount (sum_prices rows) order0) with order.
  by rewrite Order_save_run.
Qed.

End PlaceOrder.

Lemma atomic_rollback {A} (body : Py A) (db : DB) :
  raised (atomic body db).1 -> (atomic body db).2 = db.
Proof. unfold atomic. by destruct (body db) as [[a|e] db']. Qed.

Lemma filter_pk_missing (customers : list Customer.t) (pk : Z) :
  pk ∉ Customer.id <$> customers ->
  filter (fun c => Customer.id c = pk) customers = [].
Proof.
  intros Hpk. apply filter_none. intros c Hc <-.
  by apply Hpk, list_elem_of_fmap_2.
Qed.

Section OrderValidation.
Variable py_int : string -> option Z.

Lemma parsed_elem (product_ids : list string) (pks : list Z) (pid : string) :
  parsed py_int product_ids pks -> pid ∈ product_ids ->
  exists pk, py_int pid = Some pk /\ pk ∈ pks.
Proof.
  induction 1 as [|x n l k Hx _ IH]; [by intros ?%elem_of_nil|].
  intros [->|Hin]%elem_of_cons.
  - exists n. split; [done | by left].
  - destruct (IH Hin) as (pk & Hpk & Hk). exists pk. split; [done | by right].
Qed.

Lemma parsed_elem_inv (product_ids : list string) (pks : list Z) (pk : Z) :
  parsed py_int product_ids pks -> pk ∈ pks ->
  exists pid, pid ∈ product_ids /\ py_int pid = Some pk.
Proof.
  induction 1 as [|x n l k Hx _ IH]; [by intros ?%elem_of_nil|].
  intros [->|Hin]%elem_of_cons.
  - exists x. split; [by left | done].
  - destruct (IH Hin) as (pid & Hpid & Hk). exists pid. split; [by right | done].
Qed.

Lemma parsed_NoDup (product_ids : list string) (pks : list Z) :
  parsed py_int product_ids pks -> NoDup pks -> NoDup product_ids.
Proof.
  induction 1 as [|x n l k Hx Hl IH]; [constructor|].
  rewrite !NoDup_cons. intros [Hn Hk]. split; [|by apply IH].
  intros Hin. destruct (parsed_elem l k x Hl Hin) as (pk & Hpk & Hkk).
  congruence.
Qed.

Lemma parsed_functional (product_ids : list string) (pks pks' : list Z) :
  parsed py_int product_ids pks -> parsed py_int product_ids pks' -> pks = pks'.
Proof.
  intros H. revert pks'. induction H as [|x n l k Hx _ IH]; intros pks' H'.
  - by inversion H'.
  - inversion H' as [|? n' ? k' Hx' Hl']; subst. f_equal; [congruence | by apply IH].
Qed.

(** The count of the rows found differs from the number of identifiers as
    soon as an identifier is repeated or names no stored product. *)
Lemma count_differs (db : DB) (product_ids : list string) (pks : list Z) :
  NoDup (Product.id <$> crm_product db) ->
  parsed py_int product_ids pks ->
  ~ NoDup product_ids
  \/ (exists pid, pid ∈ product_ids
        /\ forall pk, py_int pid = Some pk -> pk ∉ Product.id <$> crm_product db) ->
  length (Product_rows pks db) <> length product_ids.
Proof.
  intros Hpk Hparsed Hbad Hlen.
  rewrite (Forall2_length _ _ _ Hparsed) in Hlen.
  destruct (count_matches db pks Hpk Hlen) as [Hnd Hall].
  destruct Hbad as [Hdup | (pid & Hpid & Hmissing)].
  - by apply Hdup, (parsed_NoDup _ pks).
  - destruct (parsed_elem _ _ _ Hparsed Hpid) as (pk & Hsome & Hin).
    by apply (Hmissing pk Hsome), Hall.
Qed.

(** What [CreateOrder] does when the count differs: it raises, with the list
    of the identifiers that name no row found. *)
Lemma CreateOrder_count_differs (input : OrderInput.t) (db : DB) (pks : list Z) :
  let product_ids := OrderInput.product_ids input in
  parsed py_int product_ids pks ->
  length (Product_rows pks db) <> length product_ids ->
  raised (CreateOrder_mutate py_int input db).1.
Proof.
  intros product_ids Hparsed Hlen. rewrite CreateOrder_run.
  fold product_ids. case_bool_decide; [done|].
  destruct (py_int _); [|done]. destruct (filter _ _); [done|].
  destruct (filter_pk_in_run py_int product_ids db)
    as [(pks' & Hpks' & ->) | (e & bad & _ & _ & ->)]; [|done].
  rewrite (parsed_functional _ _ _ Hpks' Hparsed).
  rewrite bool_decide_eq_true_2 by done.
  by destruct (invalid_product_ids_run py_int
                 (list_to_set (Product.id <$> Product_rows pks db))
                 product_ids pks db Hparsed) as (invalid & -> & _).
Qed.

(** C2. [CreateOrder] is atomic: whenever it raises, the database is the one
    it started from, so no order is created and no row is modified; and it
    does raise when the list of products is empty, when the customer
    identifier names no stored customer, and when one of the product
    identifiers names no stored product. *)
Theorem CreateOrder_atomic (input : OrderInput.t) (db : DB) :
  let customer_id := OrderInput.customer_id input in
  let product_ids := OrderInput.product_ids input in
  let out := CreateOrder_mutate py_int input db in
  (raised out.1 -> out.2 = db)
  /\ (product_ids = [] -> out = (Raise (Exception no_products_message), db))
  /\ ((forall pk, py_int customer_id = Some pk ->
                  pk ∉ Customer.id <$> crm_customer db) ->
      raised out.1)
  /\ (NoDup (Product.id <$> crm_product db) ->
      (exists pid, pid ∈ product_ids
         /\ forall pk, py_int pid = Some pk -> pk ∉ Product.id <$> crm_product db) ->
      raised out.1).
Proof.
  intros customer_id product_ids out. repeat split.
  - apply atomic_rollback.
  - intros Hnil. unfold out. rewrite CreateOrder_run. fold product_ids.
    by rewrite bool_decide_eq_true_2.
  - intros Hmissing. unfold out. rewrite CreateOrder_run.
    fold customer_id product_ids. case_bool_decide; [done|].
    destruct (py_int customer_id) as [pk|] eqn:Hc; [|done].
    by rewrite filter_pk_missing by by apply Hmissing.
  - intros Hpk Hmissing. unfold out.
    destruct (filter_pk_in_run py_int product_ids db)
      as [(pks & Hparsed & Hrun) | (e & bad & Hbad & Hnone & Hrun)].
    + apply (CreateOrder_count_differs input db pks Hparsed).
      apply count_differs; auto.
    + rewrite CreateOrder_run. fold customer_id product_ids.
      case_bool_decide; [done|].
      destruct (py_int customer_id); [|done].
      destruct (filter _ _); [done|]. by rewrite Hrun.
Qed.

(** C9. [CreateOrder] rejects a list of products in which an identifier is
    repeated: it raises and leaves the database as it was, so no order is
    created; when the customer and every listed product are stored, the
    count of the rows found differs from the length of the list and the
    message lists no identifier. *)
Theorem CreateOrder_repeated_ids (input : OrderInput.t) (db : DB) :
  NoDup (Product.id <$> crm_product db) ->
  let customer_id := OrderInput.customer_id input in
  let product_ids := OrderInput.product_ids input in
  let out := CreateOrder_mutate py_int input db in
  ~ NoDup product_ids ->
  raised out.1 /\ out.2 = db
  /\ ((exists pk, py_int customer_id = Some pk
                  /\ pk ∈ Customer.id <$> crm_customer db) ->
      (forall pid, pid ∈ product_ids ->
         exists pk, py_int pid = Some pk /\ pk ∈ Product.id <$> crm_product db) ->
      out.1 = Raise (Exception "Validation Error: Invalid product ID(s) found: ")).
Proof.
  intros Hpk customer_id product_ids out Hdup.
  assert (raised out.1) as Hraised.
  { unfold out.
    destruct (filter_pk_in_run py_int product_ids db)
      as [(pks & Hparsed & Hrun) | (e & bad & Hbad & Hnone & Hrun)].
    - apply (CreateOrder_count_differs input db pks Hparsed).
      apply count_differs; auto.
    - rewrite CreateOrder_run. fold customer_id product_ids.
      case_bool_decide; [done|].
      destruct (py_int customer_id); [|done].
      destruct (filter _ _); [done|]. by rewrite Hrun. }
  split; [done|]. split; [by apply atomic_rollback|].
  intros (cpk & Hcpk & Hstored) Hall. unfold out.
  rewrite CreateOrder_run. fold customer_id product_ids.
  rewrite bool_decide_eq_false_2 by (intros Heq; apply Hdup; rewrite Heq; constructor).
  rewrite Hcpk.
  destruct (filter _ (crm_customer db)) as [|customer others] eqn:Hfilter.
  { exfalso. apply list_elem_of_fmap in Hstored as (c & -> & Hc).
    eapply (filter_nil_not_elem_of _ _ c Hfilter); done. }
  destruct (filter_pk_in_run py_int product_ids db)
    as [(pks & Hparsed & ->) | (e & bad & Hbad & Hnone & _)].
  2:{ destruct (Hall bad Hbad) as (pk & Hsome & _). congruence. }
  rewrite bool_decide_eq_true_2 by (apply count_differs; auto).
  destruct (invalid_product_ids_run py_int
              (list_to_set (Product.id <$> Product_rows pks db))
              product_ids pks db Hparsed) as (invalid & -> & Hnil).
  rewrite Hnil; [done|].
  intros n Hn. apply elem_of_list_to_set.
  destruct (parsed_elem_inv _ _ _ Hparsed Hn) as (pid & Hpid & Hsome).
  destruct (Hall pid Hpid) as (pk & Hsome' & Hin).
  assert (pk = n) as -> by congruence.
  apply list_elem_of_fmap in Hin as (p & -> & Hp).
  apply list_elem_of_fmap_2, list_elem_of_filter. done.
Qed.


End OrderValidation.

(** ** [BulkCreateCustomers] *)

Lemma saved_rows_fields (table : list Customer.t) (objs : list Customer.new) :
  Forall2 (fun row c => Customer.name row = Customer.new_name c
                        /\ Customer.email row = Customer.new_email c
                        /\ Customer.phone row = Customer.new_phone c)
          (saved_rows table objs) objs.
Proof.
  revert table. induction objs as [|c objs IH]; intros table; constructor; auto.
Qed.

(** Inserting instances whose addresses are new and pairwise distinct stores
    them all. *)
Lemma inserts_run (objs : list Customer.new) (db : DB) :
  NoDup (Customer.new_email <$> objs) ->
  (forall c, c ∈ objs -> Customer.new_email c ∉ emails db) ->
  for_each Customer_insert objs db
  = (Return (saved_rows (crm_customer db) objs),
     set_crm_customer (crm_customer db ++ saved_rows (crm_customer db) objs) db).
Proof.
  revert db. induction objs as [|c objs IH]; intros db Hnd Hfresh.
  - cbn. rewrite app_nil_r. by destruct db.
  - rewrite fmap_cons, NoDup_cons in Hnd. destruct Hnd as [Hc Hnd].
    cbn [for_each saved_rows]. rewrite run_bind.
    unfold Customer_insert at 1.
    rewrite bool_decide_eq_false_2 by (apply Hfresh; by left).
    rewrite run_bind, IH; [| done |].
    + cbn. by rewrite <- app_assoc.
    + intros c' Hc'. unfold emails. cbn. rewrite fmap_app. cbn.
      intros [Hin | Heq%list_elem_of_singleton]%elem_of_app.
      * by apply (Hfresh c'); [right|].
      * apply Hc. cbn in Heq. rewrite <- Heq. by apply list_elem_of_fmap_2.
Qed.

Lemma for_each_cons {A B} (f : A -> Py B) (a : A) (l : list A) (db : DB) :
  for_each f (a :: l) db
  = match f a db with
    | (Return b, db1) =>
        match for_each f l db1 with
        | (Return bs, db2) => (Return (b :: bs), db2)
        | (Raise e, db2) => (Raise e, db2)
        end
    | (Raise e, db1) => (Raise e, db1)
    end.
Proof.
  cbn [for_each]. rewrite run_bind. destruct (f a db) as [[b|e] db1]; [|done].
  rewrite run_bind. by destruct (for_each f l db1) as [[bs|e] db2].
Qed.

Lemma Customer_insert_run (c : Customer.new) (db : DB) :
  Customer_insert c db
  = if bool_decide (Customer.new_email c ∈ emails db)
    then (Raise (IntegrityError unique_email_detail), db)
    else
      let row := Customer.saved (next_pk (Customer.id <$> crm_customer db)) c in
      (Return row, set_crm_customer (crm_customer db ++ [row]) db).
Proof. reflexivity. Qed.

Lemma emails_after_insert (row : Customer.t) (db : DB) :
  emails (set_crm_customer (crm_customer db ++ [row]) db)
  = emails db ++ [Customer.email row].
Proof. unfold emails. cbn. by rewrite fmap_app. Qed.

(** An instance whose address is stored stops the inserts. *)
Lemma inserts_stored (objs : list Customer.new) (db : DB) (c : Customer.new) :
  c ∈ objs -> Customer.new_email c ∈ emails db ->
  exists db', for_each Customer_insert objs db
              = (Raise (IntegrityError unique_email_detail), db').
Proof.
  revert db. induction objs as [|c' objs IH]; intros db Hc Hstored.
  { by apply elem_of_nil in Hc. }
  rewrite for_each_cons, Customer_insert_run.
  case_bool_decide as Hin; [by eexists|]. cbv zeta.
  apply elem_of_cons in Hc as [->|Hc]; [done|].
  edestruct IH as [db' ->]; [exact Hc | | by eexists].
  rewrite emails_after_insert. apply elem_of_app. by left.
Qed.

(** Two instances with one address: the unique index refuses the second. *)
Lemma inserts_refused (objs : list Customer.new) (db : DB) :
  ~ NoDup (Customer.new_email <$> objs) ->
  exists db', for_each Customer_insert objs db
              = (Raise (IntegrityError unique_email_detail), db').
Proof.
  revert db. induction objs as [|c objs IH]; intros db Hdup.
  { destruct Hdup. constructor. }
  rewrite for_each_cons, Customer_insert_run.
  case_bool_decide as Hin; [by eexists|]. cbv zeta.
  destruct (decide (Customer.new_email c ∈ Customer.new_email <$> objs)) as [Hc|Hc].
  - apply list_elem_of_fmap in Hc as (c' & Heq & Hc').
    edestruct (inserts_stored objs) as [db' ->]; [exact Hc' | | by eexists].
    rewrite emails_after_insert, <- Heq.
    apply elem_of_app. right. by left.
  - edestruct IH as [db' ->]; [|by eexists].
    intros Hnd. apply Hdup. rewrite fmap_cons. by constructor.
Qed.

(** Two entries at different positions that both pass a filter appear twice
    in the filtered list. *)
Lemma filter_positions {A B} (f : A -> B) (P : A -> Prop)
    `{forall x, Decision (P x)} (l : list A) (i j : nat) (a b : A) :
  (i < j)%nat -> l !! i = Some a -> l !! j = Some b -> P a -> P b ->
  NoDup (f <$> filter P l) -> f a <> f b.
Proof.
  intros Hij Ha Hb HPa HPb Hnd Heq.
  rewrite <- (take_drop_middle l i a Ha) in Hnd.
  rewrite filter_app, filter_cons_True, fmap_app, fmap_cons in Hnd by done.
  apply NoDup_app in Hnd as (_ & _ & Hnd). apply NoDup_cons in Hnd as [Hnotin _].
  apply Hnotin. rewrite Heq. apply list_elem_of_fmap_2, list_elem_of_filter.
  split; [done|]. apply (list_elem_of_lookup_2 _ (j - S i)).
  rewrite lookup_drop. by replace (S i + (j - S i))%nat with j by lia.
Qed.

Lemma filter_repeated {A B} (f : A -> B) (P : A -> Prop)
    `{forall x, Decision (P x)} (l : list A) (i j : nat) (a b : A) :
  i <> j -> l !! i = Some a -> l !! j = Some b -> P a -> P b -> f a = f b ->
  ~ NoDup (f <$> filter P l).
Proof.
  intros Hij Ha Hb HPa HPb Heq Hnd.
  destruct (decide (i < j)%nat).
  - by apply (filter_positions f P l i j a b).
  - apply (filter_positions f P l j i b a); auto. lia.
Qed.

Lemma length_omap_filter {A B} (f : A -> option B) (l : list A) :
  length (omap f l) = length (filter (fun x => f x <> None) l).
Proof.
  induction l as [|x l IH]; [done|].
  rewrite filter_cons.
  change (omap f (x :: l))
    with (match f x with Some y => y :: omap f l | None => omap f l end).
  destruct (f x); [rewrite decide_True by done | rewrite decide_False by tauto];
    cbn; by rewrite IH.
Qed.

Section BulkProperties.
Variable valid_email : string -> bool.

Lemma record_error_passes (db : DB) (r : BulkCustomerInput.t) :
  record_error valid_email db r = None <-> passes valid_email db r.
Proof.
  unfold record_error, passes, accepted.
  destruct (valid_email _); cbn; [|done].
  destruct (truthy _); cbn; [destruct (valid_phone _); cbn; [|done]|];
    by case_bool_decide.
Qed.

Lemma bulk_record_run (existing_emails : gset string) (r : BulkCustomerInput.t)
    (customers_to_create : list Customer.new) (validation_errors : list string)
    (db : DB) :
  (BulkCustomerInput.email r ∈ existing_emails
   <-> BulkCustomerInput.email r ∈ emails db) ->
  bulk_record valid_email existing_emails r
    (customers_to_create, validation_errors) db
  = (Return
       (match record_error valid_email db r with
        | None => customers_to_create ++ [to_new r]
        | Some _ => customers_to_create
        end,
        match record_error valid_email db r with
        | None => validation_errors
        | Some message => validation_errors ++ [message]
        end), db).
Proof.
  intros Hexisting.
  unfold bulk_record, record_error, try_except, validate_email, phone_validator.
  py_run.
  destruct (valid_email _); cbn; [|done].
  destruct (truthy (BulkCustomerInput.phone r)); cbn.
  - destruct (valid_phone _); cbn; [|done].
    repeat case_bool_decide; try tauto; done.
  - repeat case_bool_decide; try tauto; done.
Qed.

Lemma bulk_loop_run (existing_emails : gset string)
    (input : list BulkCustomerInput.t)
    (customers_to_create : list Customer.new) (validation_errors : list string)
    (db : DB) :
  (forall r, r ∈ input ->
     BulkCustomerInput.email r ∈ existing_emails
     <-> BulkCustomerInput.email r ∈ emails db) ->
  for_loop (bulk_record valid_email existing_emails) input
    (customers_to_create, validation_errors) db
  = (Return
       (customers_to_create
        ++ (to_new <$> filter (fun r => record_error valid_email db r = None) input),
        validation_errors ++ omap (record_error valid_email db) input), db).
Proof.
  revert customers_to_create validation_errors.
  induction input as [|r input IH]; intros to_create errors Hexisting.
  - cbn. by rewrite !app_nil_r.
  - cbn [for_loop]. rewrite run_bind.
    rewrite bulk_record_run by (refine (Hexisting r _); by left).
    rewrite IH. 2:{ intros r' Hr'. refine (Hexisting r' _). by right. }
    rewrite filter_cons.
    change (omap (record_error valid_email db) (r :: input))
      with (match record_error valid_email db r with
            | Some message => message :: omap (record_error valid_email db) input
            | None => omap (record_error valid_email db) input
            end).
    destruct (record_error valid_email db r) as [message|] eqn:Hr.
    + rewrite decide_False by done. by rewrite <- !app_assoc.
    + rewrite decide_True by done. by rewrite <- !app_assoc.
Qed.

Lemma record_error_fresh (db : DB) (r : BulkCustomerInput.t) :
  record_error valid_email db r = None -> BulkCustomerInput.email r ∉ emails db.
Proof.
  unfold record_error. destruct (negb _); [done|]. destruct (_ && _); [done|].
  by case_bool_decide.
Qed.

(** The resolver in one equation. The records that pass are inserted
    together: all of them when their addresses are pairwise distinct, none of
    them otherwise. *)
Lemma BulkCreateCustomers_run (input : list BulkCustomerInput.t) (db : DB) :
  let good := filter (fun r => record_error valid_email db r = None) input in
  let created := saved_rows (crm_customer db) (to_new <$> good) in
  BulkCreateCustomers_mutate valid_email input db
  = if decide (NoDup (BulkCustomerInput.email <$> good))
    then (Return {| BulkCreateCustomers.customers := created;
                    BulkCreateCustomers.errors := omap (record_error valid_email db) input |},
          set_crm_customer (crm_customer db ++ created) db)
    else (Return {| BulkCreateCustomers.customers := [];
                    BulkCreateCustomers.errors :=
                      omap (record_error valid_email db) input ++ [database_error_message] |},
          db).
Proof.
  intros good created.
  unfold BulkCreateCustomers_mutate, Customer_objects_filter_email_in.
  rewrite run_bind, run_bind. cbn [get_db]. rewrite run_ret, run_bind.
  rewrite bulk_loop_run.
  2:{ intros r Hr. rewrite elem_of_list_to_set, list_elem_of_filter.
      split; [tauto|]. split; [|done]. by apply list_elem_of_fmap_2. }
  fold good. cbn [app]. rewrite run_bind.
  assert (Customer.new_email <$> (to_new <$> good)
          = BulkCustomerInput.email <$> good) as Hemails.
  { by rewrite <- list_fmap_compose. }
  assert (forall c, c ∈ to_new <$> good -> Customer.new_email c ∉ emails db)
    as Hfresh.
  { intros c (r & -> & Hr)%list_elem_of_fmap.
    apply list_elem_of_filter in Hr as [Hr _]. by apply record_error_fresh. }
  subst created. rewrite <- Hemails.
  revert Hfresh. generalize (to_new <$> good). clear Hemails.
  intros objs Hfresh.
  destruct objs as [|c objs'].
  - cbn. rewrite decide_True by constructor. rewrite app_nil_r. by destruct db.
  - revert Hfresh. generalize (c :: objs'). intros objs Hfresh.
    unfold try_except, Customer_objects_bulk_create, atomic.
    rewrite run_bind.
    destruct (decide (NoDup (Customer.new_email <$> objs))) as [Hnd|Hdup].
    + rewrite inserts_run; [done | done |]. apply Hfresh.
    + by destruct (inserts_refused _ db Hdup) as [db' ->].
Qed.

(** C1, as amended. When the records that pass the checks (a well-formed
    address that is not stored, a phone that is absent, empty, or matches the
    pattern) carry pairwise distinct addresses, each of them is stored and
    returned in [customers], in the order of the request and with the name,
    address and phone given; every other record adds exactly one message to
    [errors]; the records that fail do not keep the others from being
    stored. *)
Theorem BulkCreateCustomers_partial_success
    (input : list BulkCustomerInput.t) (db : DB) :
  let good := filter (passes valid_email db) input in
  let others := filter (fun r => ~ passes valid_email db r) input in
  NoDup (BulkCustomerInput.email <$> good) ->
  exists created errors,
    BulkCreateCustomers_mutate valid_email input db
    = (Return {| BulkCreateCustomers.customers := created;
                 BulkCreateCustomers.errors := errors |},
       set_crm_customer (crm_customer db ++ created) db)
    /\ Forall2 (fun c r => Customer.name c = BulkCustomerInput.name r
                           /\ Customer.email c = BulkCustomerInput.email r
                           /\ Customer.phone c = BulkCustomerInput.phone r)
               created good
    /\ errors = omap (record_error valid_email db) input
    /\ length errors = length others.
Proof.
  intros good others Hnd.
  assert (filter (fun r => record_error valid_email db r = None) input = good) as Hgood.
  { apply list_filter_iff, record_error_passes. }
  exists (saved_rows (crm_customer db) (to_new <$> good)),
         (omap (record_error valid_email db) input).
  rewrite BulkCreateCustomers_run. cbv zeta. rewrite Hgood.
  rewrite decide_True by done. split; [done|]. split; [|split; [done|]].
  - pose proof (saved_rows_fields (crm_customer db) (to_new <$> good)) as H.
    rewrite Forall2_fmap_r in H. eapply Forall2_impl; [exact H|].
    by intros c r.
  - rewrite length_omap_filter. f_equal. apply list_filter_iff.
    intros r. by rewrite record_error_passes.
Qed.

(** C8, as amended. When two records of the request that pass the checks
    carry the same address, the single bulk insert violates the unique
    index, the transaction is rolled back, [customers] comes back empty,
    whatever other records passed, and one database-error message follows
    the messages of the records that failed. *)
Theorem BulkCreateCustomers_duplicate_emails
    (input : list BulkCustomerInput.t) (db : DB) (i j : nat)
    (ri rj : BulkCustomerInput.t) :
  i <> j -> input !! i = Some ri -> input !! j = Some rj ->
  BulkCustomerInput.email ri = BulkCustomerInput.email rj ->
  passes valid_email db ri -> passes valid_email db rj ->
  BulkCreateCustomers_mutate valid_email input db
  = (Return {| BulkCreateCustomers.customers := [];
               BulkCreateCustomers.errors :=
                 omap (record_error valid_email db) input
                 ++ ["Database error during bulk creation: "
                     +:+ unique_email_detail] |},
     db).
Proof.
  intros Hij Hi Hj Heq Hpi Hpj.
  rewrite BulkCreateCustomers_run. cbv zeta.
  rewrite decide_False; [done|].
  apply (filter_repeated _ _ input i j ri rj); auto;
    by apply record_error_passes.
Qed.

End BulkProperties.

(** ** Integrity is maintained *)

Lemma well_formed_customers (rows : list Customer.t) (db : DB) :
  well_formed db -> well_formed (set_crm_customer rows db).
Proof. intros [Hpk Hfk]. by split. Qed.

Lemma empty_db_well_formed : well_formed empty_db.
Proof.
  split; [constructor|]. intros r Hr. by apply elem_of_nil in Hr.
Qed.

Lemma Product_objects_create_well_formed name price stock :
  preserves well_formed (Product_objects_create name price stock).
Proof.
  intros db [Hpk Hfk]. unfold Product_objects_create.
  destruct stock as [stock|]; [|by split]. split; [|done]. cbn.
  rewrite fmap_app. apply NoDup_app. repeat split; [done | | apply NoDup_singleton].
  intros pk Hpk' ->%list_elem_of_singleton. by apply (next_pk_fresh _ Hpk').
Qed.

Section Integrity.
Variable valid_email : string -> bool.
Variable py_int : string -> option Z.

(** The hypotheses on the database made above hold in every database the
    mutations can build from the empty one. *)
Lemma Mutation_well_formed (m : mutation) (db : DB) :
  well_formed db -> well_formed (Mutation_run valid_email py_int m db).
Proof.
  intros Hwf. destruct m as [input|input|input|input]; simpl.
  - rewrite CreateCustomer_run. cbv zeta.
    destruct (accepted _ _ _ _); [by apply well_formed_customers | done].
  - rewrite BulkCreateCustomers_run. cbv zeta.
    destruct (decide _); [by apply well_formed_customers | done].
  - revert db Hwf. change (preserves well_formed (CreateProduct_mutate input)).
    pose proof Product_objects_create_well_formed.
    unfold CreateProduct_mutate, py_lt. eauto 20 with preserves.
  - rewrite CreateOrder_run. cbv zeta.
    case_bool_decide; [done|].
    destruct (py_int _); [|done].
    destruct (filter _ (crm_customer db)) as [|customer others]; [done|].
    destruct (Product_objects_filter_pk_in _ _ _) as [[pks|e] db1]; [|done].
    case_bool_decide.
    { by destruct (invalid_product_ids _ _ _ _) as [[?|?] ?]. }
    unfold atomic. rewrite (place_order_run customer pks db Hwf).
    destruct Hwf as [Hpk Hfk]. split; [done|].
    cbn. intros r [Hr | Hr]%elem_of_app; rewrite fmap_app; apply elem_of_app.
    + left. by apply Hfk.
    + right. apply list_elem_of_fmap in Hr as (p & -> & _). by left.
Qed.

End Integrity.

(** ** How long an accepted phone number is *)

Lemma all_ascii_spec (c : ascii) : c ∈ all_ascii.
Proof.
  unfold all_ascii. rewrite <- (ascii_nat_embedding c).
  apply list_elem_of_fmap_2, elem_of_seq.
  pose proof (nat_ascii_bounded c). lia.
Qed.

Lemma class_within_spec (p q : ascii -> bool) (c : ascii) :
  class_within p q = true -> p c = true -> q c = true.
Proof.
  unfold class_within. rewrite forallb_forall. intros H Hp.
  specialize (H c). rewrite Hp in H. apply H.
  apply list_elem_of_In, all_ascii_spec.
Qed.

Lemma class_outside_spec (p q : ascii -> bool) (c : ascii) :
  class_outside p q = true -> p c = true -> q c = false.
Proof.
  unfold class_outside. rewrite forallb_forall. intros H Hp.
  specialize (H c). rewrite Hp in H. apply negb_true_iff, H.
  apply list_elem_of_In, all_ascii_spec.
Qed.

Lemma count_class_app (q : ascii -> bool) (u v : list ascii) :
  count_class q (u ++ v) = (count_class q u + count_class q v)%nat.
Proof. unfold count_class. by rewrite filter_app, length_app. Qed.

Lemma count_class_singleton (q : ascii -> bool) (c : ascii) :
  count_class q [c] = if q c then 1%nat else 0%nat.
Proof.
  unfold count_class. rewrite filter_cons, filter_nil.
  destruct (q c); by rewrite ?decide_True, ?decide_False by done.
Qed.

Lemma lang_min_count (q : ascii -> bool) (r : regex) (w : list ascii) :
  lang r w -> (min_count q r <= count_class q w)%nat.
Proof.
  induction 1 as [|p c Hc|r s u v _ IHu _ IHv|r s u _ IH|r s u _ IH| |];
    cbn [min_count]; try lia.
  - rewrite count_class_singleton.
    destruct (class_within p q) eqn:Hin; [|lia].
    by rewrite (class_within_spec p q c Hin Hc).
  - rewrite count_class_app. lia.
Qed.

Lemma lang_max_count (q : ascii -> bool) (r : regex) (w : list ascii) (n : nat) :
  lang r w -> max_count q r = Some n -> (count_class q w <= n)%nat.
Proof.
  intros H. revert n.
  induction H as [|p c Hc|r s u v _ IHu _ IHv|r s u _ IH|r s u _ IH| |];
    cbn [max_count]; intros n Hn; try done.
  - simplify_eq. cbn. lia.
  - simplify_eq. rewrite count_class_singleton.
    destruct (class_outside p q) eqn:Hout; [|destruct (q c); lia].
    by rewrite (class_outside_spec p q c Hout Hc).
  - destruct (max_count q r) as [a|]; [|done].
    destruct (max_count q s) as [b|]; [|done]. cbn in Hn. simplify_eq.
    rewrite count_class_app. specialize (IHu a eq_refl). specialize (IHv b eq_refl). lia.
  - destruct (max_count q r) as [a|]; [|done].
    destruct (max_count q s) as [b|]; [|done]. cbn in Hn. simplify_eq.
    specialize (IH a eq_refl). lia.
  - destruct (max_count q r) as [a|]; [|done].
    destruct (max_count q s) as [b|]; [|done]. cbn in Hn. simplify_eq.
    specialize (IH b eq_refl). lia.
Qed.

Lemma count_class_all (w : list ascii) : count_class (fun _ => true) w = length w.
Proof. unfold count_class. by rewrite filter_all. Qed.

(** Every phone number the validator accepts holds 11 to 18 digits and is 11
    to 21 characters long. The sample of the validator's own message,
    [+999999999], has nine digits; [max_length=20] of [Customer.phone] is
    exceeded only by a number of 20 characters with a final newline. *)
Theorem valid_phone_size (phone : string) :
  valid_phone phone = true ->
  let w := list_ascii_of_string phone in
  (11 <= count_class is_digit w <= 18)%nat /\ (11 <= length w <= 21)%nat.
Proof.
  unfold valid_phone, search_anchored. intros H%matches_spec. cbv zeta.
  rewrite <- count_class_all. repeat split.
  - apply (lang_min_count is_digit) in H. exact H.
  - by apply (lang_max_count is_digit _ _ 18) in H.
  - apply (lang_min_count (fun _ => true)) in H. exact H.
  - by apply (lang_max_count (fun _ => true) _ _ 21) in H.
Qed.


(** ** Looking customers up *)

Lemma filter_key_unique {A} (key : A -> Z) (l : list A) (x : A) :
  NoDup (key <$> l) -> x ∈ l -> filter (fun y => key y = key x) l = [x].
Proof.
  induction l as [|y l IH]; intros Hnd Hx; [by apply elem_of_nil in Hx|].
  cbn in Hnd. apply NoDup_cons in Hnd as [Hy Hnd]. rewrite filter_cons.
  apply elem_of_cons in Hx as [->|Hx].
  - rewrite decide_True by done. f_equal. apply filter_none.
    intros z Hz Heq. apply Hy. rewrite <- Heq. by apply list_elem_of_fmap_2.
  - rewrite decide_False; [by apply IH|].
    intros Heq. apply Hy. rewrite Heq. by apply list_elem_of_fmap_2.
Qed.

Lemma saved_rows_keys (table : list Customer.t) (objs : list Customer.new) :
  (forall row pk, row ∈ saved_rows table objs -> pk ∈ Customer.id <$> table ->
     pk < Customer.id row)
  /\ NoDup (Customer.id <$> saved_rows table objs).
Proof.
  revert table. induction objs as [|c objs IH]; intros table; cbn [saved_rows].
  { split; [|constructor]. intros row pk Hrow. by apply elem_of_nil in Hrow. }
  set (row := Customer.saved _ c).
  destruct (IH (table ++ [row])) as [Habove Hnd]. split.
  - intros row' pk [->|Hrow']%elem_of_cons Hpk.
    + by apply next_pk_above.
    + apply (Habove row' pk Hrow'). rewrite fmap_app. apply elem_of_app. by left.
  - cbn. apply NoDup_cons. split; [|done].
    intros (row' & Heq & Hrow')%list_elem_of_fmap.
    pose proof (Habove row' (Customer.id row) Hrow') as Hlt.
    rewrite <- Heq in Hlt. apply Z.lt_irrefl in Hlt; [done|].
    rewrite fmap_app. apply elem_of_app. right. by left.
Qed.

Lemma lookup_appended (table rows : list Customer.t) (c : Customer.t) :
  (forall pk, pk ∈ Customer.id <$> table -> pk < Customer.id c) ->
  NoDup (Customer.id <$> rows) -> c ∈ rows ->
  filter (fun c' => Customer.id c' = Customer.id c) (table ++ rows) = [c].
Proof.
  intros Habove Hnd Hc. rewrite filter_app, filter_none.
  - by apply filter_key_unique.
  - intros c' Hc' Heq. apply (Z.lt_irrefl (Customer.id c)).
    rewrite <- Heq at 1. by apply Habove, list_elem_of_fmap_2.
Qed.

Section Lookup.
Variable valid_email : string -> bool.
Variable py_int : string -> option Z.

Lemma resolve_customer_run (id : string) (db : DB) :
  resolve_customer py_int id db
  = match py_int id with
    | None =>
        (Raise (ValueError ("Field 'id' expected a number but got "
                            +:+ py_repr id +:+ ".")), db)
    | Some pk =>
        match filter (fun c => Customer.id c = pk) (crm_customer db) with
        | customer :: _ => (Return (Some customer), db)
        | [] => (Return None, db)
        end
    end.
Proof.
  unfold resolve_customer, try_except, AutoField_get_prep_value,
    Customer_objects_get.
  rewrite run_bind. destruct (py_int id) as [pk|]; [|done].
  rewrite run_ret. cbv beta iota. rewrite !run_bind. cbn [get_db].
  by destruct (filter _ (crm_customer db)).
Qed.

(** [resolve_customer] answers [None] for a number that is no stored key
    and the stored customer for one that is; an [id] that is not a number is
    not answered with [None]: the [ValueError] of the lookup, which writes
    the [id] as [repr] does, is not caught. The database is never changed. *)
Theorem resolve_customer_lookup (id : string) (db : DB) :
  (forall pk, py_int id = Some pk -> sqlite_integer pk ->
     pk ∉ Customer.id <$> crm_customer db ->
     resolve_customer py_int id db = (Return None, db))
  /\ (forall c, py_int id = Some (Customer.id c) ->
        NoDup (Customer.id <$> crm_customer db) -> c ∈ crm_customer db ->
        resolve_customer py_int id db = (Return (Some c), db))
  /\ (py_int id = None ->
      resolve_customer py_int id db
      = (Raise (ValueError ("Field 'id' expected a number but got "
                            +:+ py_repr id +:+ ".")), db)).
Proof.
  rewrite resolve_customer_run. repeat split.
  - intros pk -> _ Hpk. by rewrite filter_pk_missing.
  - intros c -> Hnd Hc. by rewrite filter_key_unique.
  - by intros ->.
Qed.

(** A customer [CreateCustomer] has returned is found again: in the database
    the call leaves, [resolve_customer] with the new key returns that very
    customer, and [resolve_all_customers] lists the customers stored before
    followed by the new one. *)
Theorem CreateCustomer_then_resolve (input : CustomerInput.t) (db db' : DB)
    (r : CreateCustomer.t) (id : string) :
  CreateCustomer_mutate valid_email input db = (Return r, db') ->
  py_int id = Some (Customer.id (CreateCustomer.customer r)) ->
  resolve_customer py_int id db' = (Return (Some (CreateCustomer.customer r)), db')
  /\ resolve_all_customers db'
     = (Return (crm_customer db ++ [CreateCustomer.customer r]), db').
Proof.
  rewrite CreateCustomer_run. cbv zeta.
  destruct (accepted _ _ _ _); [|done]. intros [= <- <-] Hid.
  split; [|done]. rewrite resolve_customer_run, Hid.
  cbn [CreateCustomer.customer crm_customer set_crm_customer].
  rewrite lookup_appended; [done| |apply NoDup_singleton|by left].
  intros pk Hpk. by apply next_pk_above.
Qed.

(** The same for [BulkCreateCustomers]: each customer of the payload is what
    [resolve_customer] returns for its key afterwards, and
    [resolve_all_customers] lists the customers stored before followed by
    those of the payload, in that order. *)
Theorem BulkCreateCustomers_then_resolve (input : list BulkCustomerInput.t)
    (db db' : DB) (r : BulkCreateCustomers.t) (c : Customer.t) (id : string) :
  BulkCreateCustomers_mutate valid_email input db = (Return r, db') ->
  c ∈ BulkCreateCustomers.customers r ->
  py_int id = Some (Customer.id c) ->
  resolve_customer py_int id db' = (Return (Some c), db')
  /\ resolve_all_customers db'
     = (Return (crm_customer db ++ BulkCreateCustomers.customers r), db').
Proof.
  rewrite BulkCreateCustomers_run. cbv zeta.
  destruct (decide _) as [Hnd|Hdup]; intros [= <- <-] Hc Hid;
    [|by apply elem_of_nil in Hc].
  cbn in Hc. split; [|done]. rewrite resolve_customer_run, Hid.
  cbn [crm_customer set_crm_customer].
  destruct (saved_rows_keys (crm_customer db)
              (to_new <$> filter (fun r => record_error valid_email db r = None) input))
    as [Habove Hkeys].
  rewrite lookup_appended; [done| |done|done].
  intros pk Hpk. by apply (Habove c pk).
Qed.

End Lookup.

(** ** Addresses that are stored already *)

Lemma saved_rows_emails (table : list Customer.t) (objs : list Customer.new) :
  Customer.email <$> saved_rows table objs = Customer.new_email <$> objs.
Proof.
  revert table. induction objs as [|c objs IH]; intros table; [done|].
  cbn. by rewrite IH.
Qed.

Lemma set_crm_customer_same (db : DB) : set_crm_customer (crm_customer db) db = db.
Proof. by destruct db. Qed.

Section Resubmission.
Variable valid_email : string -> bool.

Lemma created_emails (input : list BulkCustomerInput.t) (db : DB) :
  let good := filter (fun r => record_error valid_email db r = None) input in
  Customer.email <$> saved_rows (crm_customer db) (to_new <$> good)
  = BulkCustomerInput.email <$> good.
Proof. cbv zeta. by rewrite saved_rows_emails, <- list_fmap_compose. Qed.

Lemma record_error_stored (db : DB) (r : BulkCustomerInput.t) :
  BulkCustomerInput.email r ∈ emails db -> record_error valid_email db r <> None.
Proof. intros Hin Hnone. by apply record_error_fresh in Hnone. Qed.

Lemma placed_customers (customer : Customer.t) (pks : list Z) (db : DB) :
  crm_customer (place_order customer pks db).2 = crm_customer db.
Proof.
  unfold place_order, Order_objects_create, QuerySet_iter, Order_products_set,
    Order_calculate_total, Order_save.
  py_run. by case_bool_decide.
Qed.

End Resubmission.

Section StoredAddresses.
Variable valid_email : string -> bool.
Variable py_int : string -> option Z.

(** No mutation removes an address. *)
Lemma Mutation_run_emails (m : mutation) (db : DB) (email : string) :
  email ∈ emails db -> email ∈ emails (Mutation_run valid_email py_int m db).
Proof.
  intros Hin. destruct m as [input|input|input|input]; simpl.
  - rewrite CreateCustomer_run. cbv zeta.
    destruct (accepted _ _ _ _); [|done].
    unfold emails. cbn. rewrite fmap_app. apply elem_of_app. by left.
  - rewrite BulkCreateCustomers_run. cbv zeta. destruct (decide _); [|done].
    unfold emails. cbn. rewrite fmap_app. apply elem_of_app. by left.
  - unfold CreateProduct_mutate, py_lt, Product_objects_create.
    rewrite run_bind. case_bool_decide; [done|]. cbn.
    destruct (ProductInput.stock input) as [stock|]; [|done].
    rewrite run_bind. cbn. by case_bool_decide.
  - rewrite CreateOrder_run. cbv zeta. case_bool_decide; [done|].
    destruct (py_int _) as [pk|]; [|done].
    destruct (filter _ (crm_customer db)) as [|customer others]; [done|].
    destruct (Product_objects_filter_pk_in _ _ _) as [[pks|e] db1]; [|done].
    case_bool_decide.
    { by destruct (invalid_product_ids _ _ _ _) as [[?|?] ?]. }
    pose proof (placed_customers customer pks db) as Hc.
    unfold atomic, emails.
    destruct (place_order customer pks db) as [[r|e] db2]; [|done].
    cbn in *. by rewrite Hc.
Qed.

Lemma Mutation_runs_emails (ms : list mutation) (db : DB) (email : string) :
  email ∈ emails db -> email ∈ emails (Mutation_runs valid_email py_int ms db).
Proof.
  revert db. induction ms as [|m ms IH]; intros db Hin; [done|].
  cbn. by apply IH, Mutation_run_emails.
Qed.

(** Once [CreateCustomer] has stored an address, the address is taken, also
    after any further calls of the mutations: a [CreateCustomer] with it
    raises and changes nothing, whatever name and phone come with it, and no
    [BulkCreateCustomers] returns a customer with it. *)
Theorem CreateCustomer_not_twice (input : CustomerInput.t) (db db' : DB)
    (r : CreateCustomer.t) (ms : list mutation) :
  CreateCustomer_mutate valid_email input db = (Return r, db') ->
  let later := Mutation_runs valid_email py_int ms db' in
  (forall input', CustomerInput.email input' = CustomerInput.email input ->
     CreateCustomer_mutate valid_email input' later = (Raise code_list_error, later))
  /\ (forall records p db'',
        BulkCreateCustomers_mutate valid_email records later = (Return p, db'') ->
        CustomerInput.email input ∉ Customer.email <$> BulkCreateCustomers.customers p).
Proof.
  rewrite CreateCustomer_run. cbv zeta.
  destruct (accepted _ _ _ _); [|done]. intros [= _ Hdb].
  assert (CustomerInput.email input
          ∈ emails (Mutation_runs valid_email py_int ms db')) as Hstored.
  { apply Mutation_runs_emails.
    rewrite <- Hdb, emails_after_insert. apply elem_of_app. right. by left. }
  split.
  - intros input' Heq. apply CreateCustomer_stored_email. by rewrite Heq.
  - intros records p db''. rewrite BulkCreateCustomers_run. cbv zeta.
    destruct (decide _); intros [= <- <-]; cbn [BulkCreateCustomers.customers];
      [|apply not_elem_of_nil].
    rewrite created_emails. intros (r' & Heq & Hr)%list_elem_of_fmap.
    apply list_elem_of_filter in Hr as [Hnone _].
    apply record_error_fresh in Hnone. apply Hnone. by rewrite <- Heq.
Qed.

End StoredAddresses.

Section Reports.
Variable valid_email : string -> bool.

(** On a list of records [BulkCreateCustomers] does not raise: what a record
    or the database refuses is reported in the payload. The database grows by
    exactly the customers of the payload, whose addresses are pairwise
    distinct and were not stored; and [errors] holds the messages of the
    refused records in the order of the input, followed by a database error
    message only when no customer was created. *)
Theorem BulkCreateCustomers_reports (input : list BulkCustomerInput.t) (db : DB) :
  exists created errors,
    BulkCreateCustomers_mutate valid_email input db
    = (Return {| BulkCreateCustomers.customers := created;
                 BulkCreateCustomers.errors := errors |},
       set_crm_customer (crm_customer db ++ created) db)
    /\ (errors = omap (record_error valid_email db) input
        \/ (created = []
            /\ errors = omap (record_error valid_email db) input
                        ++ [database_error_message]))
    /\ NoDup (Customer.email <$> created)
    /\ (forall c, c ∈ created -> Customer.email c ∉ emails db).
Proof.
  rewrite BulkCreateCustomers_run. cbv zeta.
  destruct (decide _) as [Hnd|Hdup].
  - eexists _, _. split; [done|]. split; [by left|].
    rewrite created_emails. split; [done|].
    intros c Hc%(list_elem_of_fmap_2 Customer.email).
    rewrite created_emails in Hc.
    apply list_elem_of_fmap in Hc as (r & -> & Hr).
    apply list_elem_of_filter in Hr as [Hnone _].
    by apply record_error_fresh in Hnone.
  - exists [], (omap (record_error valid_email db) input ++ [database_error_message]).
    rewrite app_nil_r, set_crm_customer_same. split; [done|].
    split; [by right|]. split; [constructor|].
    intros c Hc. by apply elem_of_nil in Hc.
Qed.

(** Submitting the same list a second time creates nothing: whatever the
    first call did, the second returns no customer and leaves the database
    as the first call left it. *)
Theorem BulkCreateCustomers_again (input : list BulkCustomerInput.t) (db : DB) :
  let db' := (BulkCreateCustomers_mutate valid_email input db).2 in
  exists errors,
    BulkCreateCustomers_mutate valid_email input db'
    = (Return {| BulkCreateCustomers.customers := [];
                 BulkCreateCustomers.errors := errors |}, db').
Proof.
  cbv zeta. rewrite (BulkCreateCustomers_run valid_email input db). cbv zeta.
  destruct (decide _) as [Hnd|Hdup]; cbn [snd].
  - set (created := saved_rows _ _).
    set (db' := set_crm_customer _ db).
    assert (forall r, r ∈ input -> record_error valid_email db' r <> None) as Herr.
    { intros r Hr. destruct (record_error valid_email db r) as [m|] eqn:Hdb.
      - intros Hnone. apply record_error_passes in Hnone.
        assert (record_error valid_email db r = None) as Hcontra; [|congruence].
        apply record_error_passes. revert Hnone. unfold passes, accepted.
        rewrite !andb_true_iff, !negb_true_iff, !bool_decide_eq_false.
        intros [Hformat Hnew]. split; [done|]. intros Hin. apply Hnew.
        unfold db', emails. cbn. rewrite fmap_app. apply elem_of_app. by left.
      - apply record_error_stored. unfold db', emails. cbn.
        rewrite fmap_app. apply elem_of_app. right. unfold created.
        rewrite created_emails. apply list_elem_of_fmap_2.
        by apply list_elem_of_filter. }
    rewrite BulkCreateCustomers_run. cbv zeta.
    rewrite (filter_none _ input) by (intros r Hr Hnone; by apply (Herr r)).
    cbn [fmap list_fmap saved_rows]. rewrite decide_True by constructor.
    rewrite app_nil_r, set_crm_customer_same. by eexists.
  - rewrite BulkCreateCustomers_run. cbv zeta.
    rewrite decide_False by done. by eexists.
Qed.

End Reports.

(** ** When [CreateOrder] accepts *)

Lemma place_order_shape (customer : Customer.t) (pks : list Z) (db : DB) :
  exists total db',
    place_order customer pks db
    = (Return {| CreateOrder.order :=
                   {| Order.id := next_pk (Order.id <$> crm_order db);
                      Order.customer := Customer.id customer;
                      Order.total_amount := total |} |}, db')
    /\ crm_customer db' = crm_customer db /\ crm_product db' = crm_product db.
Proof.
  unfold place_order, Order_objects_create, QuerySet_iter, Order_products_set,
    Order_calculate_total, Order_save.
  py_run. case_bool_decide; by eexists _, _.
Qed.


Lemma filter_pk_found (customers : list Customer.t) (pk : Z) :
  pk ∈ Customer.id <$> customers ->
  exists c rest, filter (fun c => Customer.id c = pk) customers = c :: rest.
Proof.
  intros (c & -> & Hc)%list_elem_of_fmap.
  destruct (filter _ customers) as [|c' rest] eqn:Hf; [|by eexists _, _].
  assert (c ∈ filter (fun c' => Customer.id c' = Customer.id c) customers) as Hin
    by by apply list_elem_of_filter.
  rewrite Hf in Hin. by apply elem_of_nil in Hin.
Qed.

Section OrderAcceptance.
Variable py_int : string -> option Z.

Lemma filter_pk_in_parsed (product_ids : list string) (pks : list Z) (db : DB) :
  parsed py_int product_ids pks ->
  Product_objects_filter_pk_in py_int product_ids db = (Return pks, db).
Proof.
  intros Hp. destruct (filter_pk_in_run py_int product_ids db)
    as [(pks' & Hp' & ->)|(e & pid & Hpid & Hnone & _)].
  - by rewrite (parsed_functional py_int _ _ _ Hp Hp').
  - destruct (parsed_elem py_int _ _ _ Hp Hpid) as (pk & Hpk & _). congruence.
Qed.


(** The order [CreateOrder] returns prints, in the database the call
    leaves, as [Order <id> by <name>], with the name of the stored customer
    the request named; [Order.__str__] does not fail on it. *)
Theorem CreateOrder_str (input : OrderInput.t) (db db' : DB) (r : CreateOrder.t) :
  CreateOrder_mutate py_int input db = (Return r, db') ->
  let order := CreateOrder.order r in
  exists customer,
    customer ∈ crm_customer db
    /\ py_int (OrderInput.customer_id input) = Some (Customer.id customer)
    /\ Order_str order db'
       = (Return ("Order " +:+ pretty (Order.id order) +:+ " by "
                  +:+ Customer.name customer), db').
Proof.
  rewrite CreateOrder_run. cbv zeta. case_bool_decide; [done|].
  destruct (py_int (OrderInput.customer_id input)) as [pk|]; [|done].
  destruct (filter _ (crm_customer db)) as [|customer others] eqn:Hf; [done|].
  destruct (Product_objects_filter_pk_in _ _ _) as [[pks|e] db1]; [|done].
  case_bool_decide.
  { by destruct (invalid_product_ids _ _ _ _) as [[?|?] ?]. }
  destruct (place_order_shape customer pks db) as (total & db2 & Hrun & Hc & _).
  unfold atomic. rewrite Hrun. intros [= <- <-]. exists customer.
  assert (customer ∈ filter (fun c => Customer.id c = pk) (crm_customer db))
    as [Hpk Hin]%list_elem_of_filter by (rewrite Hf; by left).
  split; [done|]. split; [by rewrite Hpk|].
  unfold Order_str, Customer_objects_get. rewrite !run_bind. cbn [get_db].
  cbn [CreateOrder.order Order.customer]. rewrite Hc, Hpk, Hf. done.
Qed.

End OrderAcceptance.

(** ** What a mutation does to the database *)

Lemma CreateProduct_run (input : ProductInput.t) (db : DB) :
  let name := ProductInput.name input in
  let price := ProductInput.price input in
  CreateProduct_mutate input db
  = if bool_decide (price ≤ 0)
    then (Raise (Exception "Validation Error: Price must be a positive number."), db)
    else
      match ProductInput.stock input with
      | None =>
          (Raise (TypeError "'<' not supported between instances of 'NoneType' and 'int'"),
           db)
      | Some stock =>
          if bool_decide (stock < 0)
          then (Raise (Exception "Validation Error: Stock cannot be negative."), db)
          else
            let row := {| Product.id := next_pk (Product.id <$> crm_product db);
                          Product.name := name; Product.price := price;
                          Product.stock := stock |} in
            (Return {| CreateProduct.product := row |},
             set_crm_product (crm_product db ++ [row]) db)
      end.
Proof.
  cbv zeta. unfold CreateProduct_mutate, py_lt, Product_objects_create.
  rewrite run_bind. case_bool_decide; [done|]. cbn.
  destruct (ProductInput.stock input) as [stock|]; [|done].
  rewrite run_bind. cbn. by case_bool_decide.
Qed.

Lemma placed_run (customer : Customer.t) (pks : list Z) (db : DB) :
  well_formed db ->
  place_order customer pks db
  = (Return {| CreateOrder.order :=
                 {| Order.id := next_pk (Order.id <$> crm_order db);
                    Order.customer := Customer.id customer;
                    Order.total_amount := sum_prices (Product_rows pks db) |} |},
     placed customer pks db).
Proof. intros Hwf. by rewrite place_order_run. Qed.





Section Effects.
Variable valid_email : string -> bool.
Variable py_int : string -> option Z.

Lemma Mutation_extends (m : mutation) (db : DB) :
  well_formed db -> extends db (Mutation_run valid_email py_int m db).
Proof.
  intros Hwf. destruct m as [input|input|input|input]; simpl.
  - rewrite CreateCustomer_run. cbv zeta.
    destruct (accepted _ _ _ _); [|constructor].
    apply (extends_customers db
             [{| Customer.new_name := CustomerInput.name input;
                 Customer.new_email := CustomerInput.email input;
                 Customer.new_phone := CustomerInput.phone input |}]).
  - rewrite BulkCreateCustomers_run. cbv zeta.
    destruct (decide _); constructor.
  - rewrite CreateProduct_run. cbv zeta.
    case_bool_decide; [constructor|].
    destruct (ProductInput.stock input) as [stock|]; [|constructor].
    case_bool_decide; constructor.
  - rewrite CreateOrder_run. cbv zeta.
    case_bool_decide; [constructor|].
    destruct (py_int _) as [pk|]; [|constructor].
    destruct (filter _ (crm_customer db)) as [|customer others] eqn:Hf;
      [constructor|].
    destruct (Product_objects_filter_pk_in _ _ _) as [[pks|e] db1]; [|constructor].
    case_bool_decide.
    { destruct (invalid_product_ids _ _ _ _) as [[?|?] ?]; constructor. }
    unfold atomic. rewrite (placed_run customer pks db Hwf).
    apply extends_order.
    assert (customer ∈ filter (fun c => Customer.id c = pk) (crm_customer db))
      as [_ ?]%list_elem_of_filter by (rewrite Hf; by left).
    done.
Qed.

(** The mutations only append. In a well-formed database no call removes
    or rewrites a stored row: each table before the call is a prefix of the
    table after it. The customer mutations touch [crm_customer] only,
    [CreateProduct] touches [crm_product] only, and [CreateOrder] leaves
    customers and products as they are. *)
Theorem Mutation_appends (m : mutation) (db : DB) :
  well_formed db ->
  let db' := Mutation_run valid_email py_int m db in
  crm_customer db `prefix_of` crm_customer db'
  /\ crm_product db `prefix_of` crm_product db'
  /\ crm_order db `prefix_of` crm_order db'
  /\ crm_order_products db `prefix_of` crm_order_products db'
  /\ match m with
     | create_customer _ | bulk_create_customers _ =>
         crm_product db' = crm_product db /\ crm_order db' = crm_order db
         /\ crm_order_products db' = crm_order_products db
     | create_product _ =>
         crm_customer db' = crm_customer db /\ crm_order db' = crm_order db
         /\ crm_order_products db' = crm_order_products db
     | create_order _ =>
         crm_customer db' = crm_customer db /\ crm_product db' = crm_product db
     end.
Proof.
  intros Hwf db'. split_and!.
  1-4: destruct (Mutation_extends m db Hwf); cbn; try done; by apply prefix_app_r.
  subst db'. destruct m as [input|input|input|input]; simpl.
  - rewrite CreateCustomer_run. cbv zeta. by destruct (accepted _ _ _ _).
  - rewrite BulkCreateCustomers_run. cbv zeta. by destruct (decide _).
  - rewrite CreateProduct_run. cbv zeta. case_bool_decide; [done|].
    destruct (ProductInput.stock input); [|done]. by case_bool_decide.
  - pose proof (Mutation_extends (create_order input) db Hwf) as Hext.
    simpl in Hext. revert Hext. rewrite CreateOrder_run. cbv zeta.
    case_bool_decide; [done|].
    destruct (py_int _) as [pk|]; [|done].
    destruct (filter _ (crm_customer db)) as [|customer others]; [done|].
    destruct (Product_objects_filter_pk_in _ _ _) as [[pks|e] db1]; [|done].
    case_bool_decide.
    { by destruct (invalid_product_ids _ _ _ _) as [[?|?] ?]. }
    unfold atomic. by rewrite (placed_run customer pks db Hwf).
Qed.

(** Keys and references survive every mutation: customer and order keys
    stay pairwise distinct, every order keeps a stored customer, and every
    link of [crm_order_products] keeps a stored product. *)
Theorem Mutation_referential_integrity (m : mutation) (db : DB) :
  well_formed db -> referential_integrity db ->
  referential_integrity (Mutation_run valid_email py_int m db).
Proof.
  intros Hwf [Hck Hok Hfk Hlk].
  destruct (Mutation_extends m db Hwf) as [|objs|name price stock|customer pks Hc].
  - by split.
  - split; cbn; try done.
    + destruct (saved_rows_keys (crm_customer db) objs) as [Habove Hnd].
      rewrite fmap_app. apply NoDup_app. split_and!; [done| |done].
      intros pk Hpk (row & -> & Hrow)%list_elem_of_fmap.
      specialize (Habove row _ Hrow Hpk). lia.
    + intros o Ho. rewrite fmap_app. apply elem_of_app. left. by apply Hfk.
  - split; cbn; try done.
    intros r Hr. rewrite fmap_app. apply elem_of_app. left. by apply Hlk.
  - split; cbn; try done.
    + rewrite fmap_app. apply NoDup_app. split_and!; [done| |apply NoDup_singleton].
      intros pk Hpk ->%list_elem_of_singleton. by apply (next_pk_fresh _ Hpk).
    + intros o [Ho| ->%list_elem_of_singleton]%elem_of_app; [by apply Hfk|].
      cbn [Order.customer]. by apply list_elem_of_fmap_2.
    + intros r [Hr|Hr]%elem_of_app; [by apply Hlk|].
      apply list_elem_of_fmap in Hr as (pk & -> & Hpk). cbn.
      apply list_elem_of_fmap in Hpk as (p & -> & Hp).
      apply list_elem_of_fmap_2. by apply list_elem_of_filter in Hp as [_ ?].
Qed.

(** The resolvers keep what the validator of [Product.stock] declares,
    although [Product.objects.create] does not run it: if no stored product
    has a stock below 0, none has after any mutation. *)
Theorem Mutation_nonnegative_stock (m : mutation) (db : DB) :
  nonnegative_stock db ->
  nonnegative_stock (Mutation_run valid_email py_int m db).
Proof.
  intros Hvalid. destruct m as [input|input|input|input]; simpl.
  - rewrite CreateCustomer_run. cbv zeta. by destruct (accepted _ _ _ _).
  - rewrite BulkCreateCustomers_run. cbv zeta. by destruct (decide _).
  - rewrite CreateProduct_run. cbv zeta. case_bool_decide; [done|].
    destruct (ProductInput.stock input) as [stock|]; [|done].
    case_bool_decide; [done|]. cbn.
    intros p [Hp| ->%list_elem_of_singleton]%elem_of_app; [by apply Hvalid|].
    cbn. lia.
  - rewrite CreateOrder_run. cbv zeta. case_bool_decide; [done|].
    destruct (py_int _) as [pk|]; [|done].
    destruct (filter _ (crm_customer db)) as [|customer others]; [done|].
    destruct (Product_objects_filter_pk_in _ _ _) as [[pks|e] db1]; [|done].
    case_bool_decide.
    { by destruct (invalid_product_ids _ _ _ _) as [[?|?] ?]. }
    destruct (place_order_shape customer pks db) as (total & db2 & Hrun & _ & Hp).
    unfold atomic. rewrite Hrun. cbn. unfold nonnegative_stock. by rewrite Hp.
Qed.


Lemma sum_prices_positive (rows : list Product.t) :
  rows <> [] -> (forall p, p ∈ rows -> 0 < Product.price p) -> 0 < sum_prices rows.
Proof.
  unfold sum_prices. destruct rows as [|p rows]; [done|]. intros _ Hpos.
  assert (0 <= foldr Z.add 0 (Product.price <$> rows)) as Hrest.
  { induction rows as [|q rows IH]; [done|]. cbn.
    assert (0 < Product.price q) by (apply Hpos; right; by left).
    assert (0 <= foldr Z.add 0 (Product.price <$> rows)); [|lia].
    apply IH. intros p' [->|Hp']%elem_of_cons; apply Hpos; [by left|].
    right. by right. }
  cbn. specialize (Hpos p (list_elem_of_here _ _)). lia.
Qed.

(** Where every stored price is above 0, the total of an order that
    [CreateOrder] returns is above 0. Nothing is asked of the stock. *)
Theorem CreateOrder_total_positive (input : OrderInput.t) (db db' : DB)
    (r : CreateOrder.t) :
  well_formed db -> positive_prices db ->
  CreateOrder_mutate py_int input db = (Return r, db') ->
  0 < Order.total_amount (CreateOrder.order r).
Proof.
  intros Hwf Hvalid. rewrite CreateOrder_run. cbv zeta.
  case_bool_decide as Hne; [done|].
  destruct (py_int _) as [pk|]; [|done].
  destruct (filter _ (crm_customer db)) as [|customer others]; [done|].
  destruct (Product_objects_filter_pk_in _ _ _) as [[pks|e] db1]; [|done].
  case_bool_decide as Hcount.
  { by destruct (invalid_product_ids _ _ _ _) as [[?|?] ?]. }
  unfold atomic. rewrite (placed_run customer pks db Hwf). intros [= <- _].
  cbn. apply sum_prices_positive.
  - intros Hnil. rewrite Hnil in Hcount. cbn in Hcount.
    destruct (OrderInput.product_ids input); [by apply Hne | done].
  - intros p Hp. apply list_elem_of_filter in Hp as [_ Hp]. by apply Hvalid.
Qed.

End Effects.

(** ** The errors of [CreateOrder] and [CreateCustomer] *)

Section OrderErrors.
Variable py_int : string -> option Z.

Lemma invalid_product_ids_exact (db : DB) (product_ids : list string)
    (pks all_pks : list Z) :
  parsed py_int product_ids pks -> (forall pk, pk ∈ pks -> pk ∈ all_pks) ->
  invalid_product_ids py_int
    (list_to_set (Product.id <$> Product_rows all_pks db)) product_ids db
  = (Return (filter (fun pid => unknown_product py_int db pid = true) product_ids),
     db).
Proof.
  intros Hp. induction Hp as [|pid pk product_ids pks Hpid _ IH]; intros Hall;
    [done|].
  cbn [invalid_product_ids]. unfold int. rewrite Hpid, run_bind, run_ret.
  cbv beta iota. rewrite run_bind, IH by (intros; apply Hall; by right).
  cbv beta iota. rewrite run_ret, filter_cons.
  assert (unknown_product py_int db pid
          = bool_decide (pk ∉ Product.id <$> crm_product db)) as ->
    by (unfold unknown_product; by rewrite Hpid).
  do 2 f_equal.
  assert (pk ∈ (list_to_set (Product.id <$> Product_rows all_pks db) : gset Z)
          <-> pk ∈ Product.id <$> crm_product db) as Hiff.
  { rewrite elem_of_list_to_set. unfold Product_rows. split.
    - intros (p & -> & Hin)%list_elem_of_fmap.
      apply list_elem_of_filter in Hin as [_ Hin]. by apply list_elem_of_fmap_2.
    - intros (p & -> & Hin)%list_elem_of_fmap.
      apply list_elem_of_fmap_2, list_elem_of_filter. split; [|done].
      apply Hall. by left. }
  repeat case_bool_decide; try done; tauto.
Qed.

Lemma filter_pk_in_raises (product_ids : list string) (pid : string) (db : DB) :
  pid ∈ product_ids -> py_int pid = None ->
  exists before pid' after,
    product_ids = before ++ pid' :: after
    /\ Forall (fun p => py_int p <> None) before /\ py_int pid' = None
    /\ Product_objects_filter_pk_in py_int product_ids db
       = (Raise (ValueError ("Field 'id' expected a number but got "
                             +:+ py_repr pid' +:+ ".")), db).
Proof.
  intros Hin Hnone. induction product_ids as [|p l IH];
    [by apply elem_of_nil in Hin|].
  rewrite filter_pk_in_step. destruct (py_int p) as [n|] eqn:Hp.
  - apply elem_of_cons in Hin as [->|Hin]; [congruence|].
    destruct (IH Hin) as (before & pid' & after & -> & Hbefore & Hnone' & ->).
    exists (p :: before), pid', after. split; [done|]. split; [|done].
    constructor; [congruence|done].
  - exists [], p, l. by repeat split.
Qed.

(** The message about invalid products names exactly the identifiers that
    are no stored key, in the order of the request. When the customer is
    found and all product identifiers are numbers within the 64 bits of the
    database, but they are not pairwise distinct keys of stored products,
    [CreateOrder] raises it and changes nothing. *)
Theorem CreateOrder_invalid_ids (input : OrderInput.t) (db : DB) (pks : list Z) :
  let customer_id := OrderInput.customer_id input in
  let product_ids := OrderInput.product_ids input in
  NoDup (Product.id <$> crm_product db) ->
  (exists pk, py_int customer_id = Some pk /\ pk ∈ Customer.id <$> crm_customer db) ->
  parsed py_int product_ids pks -> Forall sqlite_integer pks ->
  product_ids <> [] ->
  ~ (NoDup pks /\ forall pk, pk ∈ pks -> pk ∈ Product.id <$> crm_product db) ->
  CreateOrder_mutate py_int input db
  = (Raise (Exception
              ("Validation Error: Invalid product ID(s) found: "
               +:+ String.concat ", "
                     (filter (fun pid => unknown_product py_int db pid = true)
                             product_ids))), db).
Proof.
  intros customer_id product_ids Hkeys (pk & Hpk & Hc) Hp _ Hne Hbad.
  rewrite CreateOrder_run. cbv zeta. fold customer_id product_ids.
  rewrite bool_decide_eq_false_2, Hpk by done.
  destruct (filter_pk_found _ _ Hc) as (c & rest & ->).
  rewrite (filter_pk_in_parsed _ _ _ _ Hp).
  rewrite bool_decide_eq_true_2.
  2:{ intros Hcount. apply Hbad, count_matches; [done|].
      rewrite Hcount. by apply Forall2_length in Hp. }
  by rewrite (invalid_product_ids_exact db product_ids pks pks Hp).
Qed.

(** An identifier that is text but not a number is not reported as a
    validation error: [CreateOrder] raises the [ValueError] of the lookup,
    which writes the identifier as [repr] does, for the customer identifier,
    or else for the first product identifier that is not a number, and
    changes nothing. *)
Theorem CreateOrder_not_a_number (input : OrderInput.t) (db : DB) :
  let customer_id := OrderInput.customer_id input in
  let product_ids := OrderInput.product_ids input in
  product_ids <> [] ->
  (py_int customer_id = None ->
   CreateOrder_mutate py_int input db
   = (Raise (ValueError ("Field 'id' expected a number but got "
                         +:+ py_repr customer_id +:+ ".")), db))
  /\ ((exists pk, py_int customer_id = Some pk
                  /\ pk ∈ Customer.id <$> crm_customer db) ->
      (exists pid, pid ∈ product_ids /\ py_int pid = None) ->
      exists before pid after,
        product_ids = before ++ pid :: after
        /\ Forall (fun p => py_int p <> None) before /\ py_int pid = None
        /\ CreateOrder_mutate py_int input db
           = (Raise (ValueError ("Field 'id' expected a number but got "
                                 +:+ py_repr pid +:+ ".")), db)).
Proof.
  intros customer_id product_ids Hne.
  rewrite CreateOrder_run. cbv zeta. fold customer_id product_ids.
  rewrite bool_decide_eq_false_2 by done. split.
  - by intros ->.
  - intros (pk & -> & Hc) (pid & Hin & Hnone).
    destruct (filter_pk_found _ _ Hc) as (c & rest & ->).
    destruct (filter_pk_in_raises product_ids pid db Hin Hnone)
      as (before & pid' & after & Heq & Hbefore & Hnone' & ->).
    by exists before, pid', after.
Qed.

End OrderErrors.

Section CustomerErrors.
Variable valid_email : string -> bool.

(** Every refusal of [CreateCustomer] ends the same way: whichever check
    fails, the handler raises [AttributeError] on [code_list], and the
    database is unchanged. None of its [Validation Error] messages is ever
    raised. *)
Theorem CreateCustomer_failures (input : CustomerInput.t) (db : DB) :
  let out := CreateCustomer_mutate valid_email input db in
  (accepted valid_email db (CustomerInput.email input) (CustomerInput.phone input)
   = false ->
   out = (Raise code_list_error, db))
  /\ ~ is_validation_error out.1.
Proof.
  cbv zeta. rewrite CreateCustomer_run. cbv zeta.
  destruct (accepted _ _ _ _); split; try done; by intros [text [=]].
Qed.

(** [BulkCreateCustomers] on a single record agrees with [CreateCustomer] on
    the same fields: where one creates a customer, the other creates the
    same customer and leaves the same database; where one raises, the other
    reports one error and creates nothing. *)
Theorem BulkCreateCustomers_single (r : BulkCustomerInput.t) (db : DB) :
  let input := {| CustomerInput.name := BulkCustomerInput.name r;
                  CustomerInput.email := BulkCustomerInput.email r;
                  CustomerInput.phone := BulkCustomerInput.phone r |} in
  match CreateCustomer_mutate valid_email input db with
  | (Return p, db') =>
      BulkCreateCustomers_mutate valid_email [r] db
      = (Return {| BulkCreateCustomers.customers := [CreateCustomer.customer p];
                   BulkCreateCustomers.errors := [] |}, db')
  | (Raise _, _) =>
      exists message,
        BulkCreateCustomers_mutate valid_email [r] db
        = (Return {| BulkCreateCustomers.customers := [];
                     BulkCreateCustomers.errors := [message] |}, db)
  end.
Proof.
  cbv zeta. rewrite CreateCustomer_run, BulkCreateCustomers_run. cbv zeta.
  cbn [CustomerInput.name CustomerInput.email CustomerInput.phone].
  rewrite filter_cons, filter_nil.
  destruct (decide (record_error valid_email db r = None)) as [Hnone|Herr].
  - pose proof Hnone as Hacc. apply record_error_passes in Hacc.
    unfold passes in Hacc. rewrite Hacc.
    cbn [fmap list_fmap saved_rows omap list_omap].
    rewrite decide_True by apply NoDup_singleton. by rewrite Hnone.
  - destruct (accepted _ _ _ _) eqn:Hacc.
    { by apply record_error_passes in Hacc. }
    cbn [fmap list_fmap saved_rows omap list_omap].
    rewrite decide_True by constructor.
    destruct (record_error valid_email db r) as [message|]; [|done].
    rewrite app_nil_r, set_crm_customer_same. by exists message.
Qed.

End CustomerErrors.

(** ** Stored customers are valid *)

Lemma saved_rows_elem (table : list Customer.t) (objs : list Customer.new)
    (c : Customer.t) :
  c ∈ saved_rows table objs ->
  exists obj, obj ∈ objs /\ Customer.email c = Customer.new_email obj
              /\ Customer.phone c = Customer.new_phone obj.
Proof.
  revert table. induction objs as [|obj objs IH]; intros table Hc;
    [by apply elem_of_nil in Hc|].
  cbn [saved_rows] in Hc. apply elem_of_cons in Hc as [->|Hc].
  - exists obj. split; [by left|done].
  - destruct (IH _ Hc) as (obj' & Hin & Hfields). exists obj'. split; [by right|done].
Qed.

Section ValidCustomers.
Variable valid_email : string -> bool.
Variable py_int : string -> option Z.

Lemma accepted_valid (db : DB) (email : string) (phone : option string) :
  accepted valid_email db email phone = true ->
  valid_email email = true
  /\ (truthy phone = true -> valid_phone (py_str phone) = true).
Proof.
  unfold accepted. rewrite !andb_true_iff, orb_true_iff, negb_true_iff.
  intros [[Hemail [Hphone|Hphone]] _]; split; try done. congruence.
Qed.

(** Stored customers stay valid: if every stored customer has an address
    [validate_email] accepts and a phone that is absent, empty or matches the
    pattern, so it is after any mutation. Both customer mutations check what
    they store, although neither runs the validators of the model. *)
Theorem Mutation_valid_customers (m : mutation) (db : DB) :
  valid_customers valid_email db ->
  valid_customers valid_email (Mutation_run valid_email py_int m db).
Proof.
  intros Hvalid. destruct m as [input|input|input|input]; simpl.
  - rewrite CreateCustomer_run. cbv zeta.
    destruct (accepted _ _ _ _) eqn:Hacc; [|done].
    intros c [Hc| ->%list_elem_of_singleton]%elem_of_app; [by apply Hvalid|].
    by apply accepted_valid in Hacc.
  - rewrite BulkCreateCustomers_run. cbv zeta. destruct (decide _); [|done].
    intros c [Hc|Hc]%elem_of_app; [by apply Hvalid|].
    apply saved_rows_elem in Hc as (obj & Hobj & -> & ->).
    apply list_elem_of_fmap in Hobj as (r & -> & Hr).
    apply list_elem_of_filter in Hr as [Hnone _].
    apply record_error_passes in Hnone. by apply accepted_valid in Hnone.
  - rewrite CreateProduct_run. cbv zeta. case_bool_decide; [done|].
    destruct (ProductInput.stock input) as [stock|]; [|done].
    by case_bool_decide.
  - rewrite CreateOrder_run. cbv zeta. case_bool_decide; [done|].
    destruct (py_int _) as [pk|]; [|done].
    destruct (filter _ (crm_customer db)) as [|customer others]; [done|].
    destruct (Product_objects_filter_pk_in _ _ _) as [[pks|e] db1]; [|done].
    case_bool_decide.
    { by destruct (invalid_product_ids _ _ _ _) as [[?|?] ?]. }
    destruct (place_order_shape customer pks db) as (total & db2 & Hrun & Hc & _).
    unfold atomic. rewrite Hrun. cbn. unfold valid_customers. by rewrite Hc.
Qed.

End ValidCustomers.

(** ** The theorems at work *)

(** The pattern on a few numbers. The sample of its own message has nine
    digits, fewer than any alternative asks for. *)
Lemma valid_phone_examples :
  valid_phone "+1234567890123" = true
  /\ valid_phone "+1 (555) 123-4567" = true
  /\ valid_phone "1-555-123-4567" = true
  /\ valid_phone "12345" = false
  /\ valid_phone "+999999999" = false
  /\ valid_phone "" = false.
Proof. repeat split; vm_compute; reflexivity. Qed.

(** A product at 1.50 with the stock left out is stored with stock 0. *)
Lemma CreateProduct_default_stock :
  CreateProduct_mutate (ProductInput.make "pen" 150 Omitted) empty_db
  = (Return {| CreateProduct.product := pen |},
     set_crm_product [pen] empty_db).
Proof. reflexivity. Qed.

(** C10. [CreateProduct] means to answer every price and stock either with a
    validation error or with a product, and misses a case: with
    [stock: null] and the price 1.50, neither condition of a validation error
    holds, and yet no product is created. The stock reaches the resolver as
    [None], and comparing [None] with 0 raises [TypeError]. *)
Theorem CreateProduct_null_stock :
  let input := ProductInput.make "pen" 150 Null in
  ~ (ProductInput.price input <= 0
     \/ exists s, ProductInput.stock input = Some s /\ s < 0)
  /\ CreateProduct_mutate input empty_db
     = (Raise (TypeError "'<' not supported between instances of 'NoneType' and 'int'"),
        empty_db).
Proof.
  split; [|reflexivity].
  cbn. intros [H | (s & [=] & _)]. lia.
Qed.

(** A second customer joins [ann]; the two addresses differ. *)
Lemma Mutation_unique_emails_witness :
  unique_emails
    (Mutation_run plain_email ascii_int
       (create_customer (CustomerInput.make "Bob" "bob@x.org" Omitted)) shop_db).
Proof.
  apply (Mutation_unique_emails plain_email ascii_int).
  unfold unique_emails. vm_compute. apply NoDup_singleton.
Defined.

Lemma shop_db_product_pk : NoDup (Product.id <$> crm_product shop_db).
Proof. apply (bool_decide_unpack _). vm_compute. exact I. Defined.

Lemma shop_db_well_formed : well_formed shop_db.
Proof.
  split; [exact shop_db_product_pk|].
  intros r Hr. by apply elem_of_nil in Hr.
Defined.

(** [ann] orders the pen and a product 9 that is not stored: the call raises
    and [shop_db] stays as it is. *)
Lemma CreateOrder_atomic_witness :
  raised (CreateOrder_mutate ascii_int
            {| OrderInput.customer_id := "1";
               OrderInput.product_ids := ["1"; "9"] |} shop_db).1
  /\ (CreateOrder_mutate ascii_int
        {| OrderInput.customer_id := "1";
           OrderInput.product_ids := ["1"; "9"] |} shop_db).2 = shop_db.
Proof.
  destruct (CreateOrder_atomic ascii_int
              {| OrderInput.customer_id := "1";
                 OrderInput.product_ids := ["1"; "9"] |} shop_db)
    as (Hrollback & _ & _ & Hproduct).
  assert (raised (CreateOrder_mutate ascii_int
                    {| OrderInput.customer_id := "1";
                       OrderInput.product_ids := ["1"; "9"] |} shop_db).1)
    as Hraised.
  { apply Hproduct; [exact shop_db_product_pk|].
    exists "9". split; [by right; left|].
    intros pk [= <-]. apply (bool_decide_unpack _). vm_compute. exact I. }
  split; [exact Hraised | exact (Hrollback Hraised)].
Defined.

(** The pen ordered twice by [ann]: the order is refused and nothing is
    stored. *)
Lemma CreateOrder_repeated_ids_witness :
  (CreateOrder_mutate ascii_int
     {| OrderInput.customer_id := "1"; OrderInput.product_ids := ["1"; "1"] |}
     shop_db).2 = shop_db.
Proof.
  refine (proj1 (proj2 (CreateOrder_repeated_ids ascii_int
                   {| OrderInput.customer_id := "1";
                      OrderInput.product_ids := ["1"; "1"] |} shop_db
                   shop_db_product_pk _))).
  apply (bool_decide_unpack _). vm_compute. exact I.
Defined.


(** Two records with one address that is not stored: each passes the checks
    on its own, and neither is created. A record whose phone is given as the
    empty string, which the pattern does not match, is created. *)
Lemma BulkCreateCustomers_shared_email :
  let a := BulkCustomerInput.make "Amy" "amy@x.org" Omitted in
  let b := BulkCustomerInput.make "Bea" "amy@x.org" Omitted in
  let c := BulkCustomerInput.make "Bob" "bob@x.org" (Value "") in
  (passes plain_email empty_db a /\ passes plain_email empty_db b
   /\ BulkCreateCustomers_mutate plain_email [a; b] empty_db
      = (Return {| BulkCreateCustomers.customers := [];
                   BulkCreateCustomers.errors := [database_error_message] |},
         empty_db))
  /\ (BulkCustomerInput.phone c = Some "" /\ valid_phone "" = false
      /\ BulkCreateCustomers_mutate plain_email [c] empty_db
         = (Return {| BulkCreateCustomers.customers :=
                        [{| Customer.id := 1; Customer.name := "Bob";
                            Customer.email := "bob@x.org";
                            Customer.phone := Some "" |}];
                      BulkCreateCustomers.errors := [] |},
            set_crm_customer
              [{| Customer.id := 1; Customer.name := "Bob";
                  Customer.email := "bob@x.org"; Customer.phone := Some "" |}]
              empty_db)).
Proof. repeat split; vm_compute; reflexivity. Qed.

(** One record is stored and returned, one malformed address and one stored
    address add a message each. *)
Lemma BulkCreateCustomers_partial_success_witness :
  exists created errors,
    BulkCreateCustomers_mutate plain_email
      [BulkCustomerInput.make "Bob" "bob@x.org" Omitted;
       BulkCustomerInput.make "Cy" "cy.x.org" Omitted;
       BulkCustomerInput.make "Ann" "ann@x.org" Null] shop_db
    = (Return {| BulkCreateCustomers.customers := created;
                 BulkCreateCustomers.errors := errors |},
       set_crm_customer (crm_customer shop_db ++ created) shop_db)
    /\ length errors = 2%nat.
Proof.
  destruct (BulkCreateCustomers_partial_success plain_email
              [BulkCustomerInput.make "Bob" "bob@x.org" Omitted;
               BulkCustomerInput.make "Cy" "cy.x.org" Omitted;
               BulkCustomerInput.make "Ann" "ann@x.org" Null] shop_db)
    as (created & errors & Hrun & _ & _ & Hlen).
  - apply (bool_decide_unpack _). vm_compute. exact I.
  - exists created, errors. split; [exact Hrun | exact Hlen].
Defined.

(** Two records that share an address, one of them with a phone the pattern
    rejects: the other one is created, and no database error is reported. *)
Lemma BulkCreateCustomers_shared_email_bad_phone :
  let a := BulkCustomerInput.make "Amy" "amy@x.org" (Value "x") in
  let b := BulkCustomerInput.make "Bea" "amy@x.org" Omitted in
  BulkCustomerInput.email a = BulkCustomerInput.email b
  /\ (BulkCustomerInput.email a ∉ emails empty_db)
  /\ BulkCreateCustomers_mutate plain_email [a; b] empty_db
     = (Return {| BulkCreateCustomers.customers :=
                    [{| Customer.id := 1; Customer.name := "Bea";
                        Customer.email := "amy@x.org"; Customer.phone := None |}];
                  BulkCreateCustomers.errors :=
                    [record_failed_message "Amy" phone_message] |},
        set_crm_customer
          [{| Customer.id := 1; Customer.name := "Bea";
              Customer.email := "amy@x.org"; Customer.phone := None |}]
          empty_db).
Proof.
  repeat split; try (vm_compute; reflexivity).
  apply not_elem_of_nil.
Qed.

(** Amy and Bea share an address; Bob, who passes, is not created either. *)
Lemma BulkCreateCustomers_duplicate_emails_witness :
  BulkCreateCustomers_mutate plain_email
    [BulkCustomerInput.make "Amy" "amy@x.org" Omitted;
     BulkCustomerInput.make "Bea" "amy@x.org" Omitted;
     BulkCustomerInput.make "Bob" "bob@x.org" Omitted] empty_db
  = (Return {| BulkCreateCustomers.customers := [];
               BulkCreateCustomers.errors :=
                 ["Database error during bulk creation: UNIQUE constraint failed: crm_customer.email"] |},
     empty_db).
Proof.
  refine (BulkCreateCustomers_duplicate_emails plain_email
            [BulkCustomerInput.make "Amy" "amy@x.org" Omitted;
             BulkCustomerInput.make "Bea" "amy@x.org" Omitted;
             BulkCustomerInput.make "Bob" "bob@x.org" Omitted] empty_db 0 1
            (BulkCustomerInput.make "Amy" "amy@x.org" Omitted)
            (BulkCustomerInput.make "Bea" "amy@x.org" Omitted) _ _ _ _ _ _);
    try reflexivity.
  lia.
Defined.

(** C4. The address of [ann] is stored: a second customer with that address
    is not created, and the call ends in the [AttributeError] of the handler
    that reads [e.code_list], not in the message about the address. *)
Theorem CreateCustomer_duplicate_email :
  CreateCustomer_mutate plain_email
    (CustomerInput.make "Bob" "ann@x.org" Omitted) shop_db
  = (Raise (AttributeError "'ValidationError' object has no attribute 'code_list'"),
     shop_db).
Proof. vm_compute. reflexivity. Qed.

(** A phone given as the empty string does not match the pattern, and the
    customer is created. *)
Lemma CreateCustomer_empty_phone :
  let input := CustomerInput.make "Bob" "bob@x.org" (Value "") in
  CustomerInput.phone input = Some "" /\ valid_phone "" = false
  /\ CreateCustomer_mutate plain_email input empty_db
     = (Return {| CreateCustomer.customer :=
                    {| Customer.id := 1; Customer.name := "Bob";
                       Customer.email := "bob@x.org"; Customer.phone := Some "" |};
                  CreateCustomer.message := "Customer 'Bob' created successfully." |},
        set_crm_customer
          [{| Customer.id := 1; Customer.name := "Bob";
              Customer.email := "bob@x.org"; Customer.phone := Some "" |}]
          empty_db).
Proof. repeat split; vm_compute; reflexivity. Qed.

(** A phone of letters: the call raises and [shop_db] stays as it is. *)
Lemma CreateCustomer_format_checks_witness :
  raised (CreateCustomer_mutate plain_email
            (CustomerInput.make "Bob" "bob@x.org" (Value "call me")) shop_db).1
  /\ (CreateCustomer_mutate plain_email
        (CustomerInput.make "Bob" "bob@x.org" (Value "call me")) shop_db).2
     = shop_db.
Proof.
  apply (CreateCustomer_format_checks plain_email
           (CustomerInput.make "Bob" "bob@x.org" (Value "call me")) shop_db).
  right. split; reflexivity.
Defined.

(** Bob is new to [shop_db]: he joins [ann]. *)
Lemma CreateCustomer_created_witness :
  crm_customer
    (CreateCustomer_mutate plain_email
       (CustomerInput.make "Bob" "bob@x.org" (Value "+1 (555) 123-4567"))
       shop_db).2
  = [ann; {| Customer.id := 2; Customer.name := "Bob";
             Customer.email := "bob@x.org";
             Customer.phone := Some "+1 (555) 123-4567" |}].
Proof.
  rewrite (CreateCustomer_created plain_email
             (CustomerInput.make "Bob" "bob@x.org" (Value "+1 (555) 123-4567"))
             shop_db); reflexivity.
Defined.

(** [shop_db] after an order is still well formed. *)
Lemma Mutation_well_formed_witness :
  well_formed
    (Mutation_run plain_email ascii_int
       (create_order {| OrderInput.customer_id := "1";
                        OrderInput.product_ids := ["1"; "2"] |}) shop_db).
Proof.
  apply (Mutation_well_formed plain_email ascii_int). exact shop_db_well_formed.
Defined.

(** The sample shop with Ann's order has unique keys and sound references,
    and the stored total is the sum of the two prices. *)
Lemma order_db_well_formed : well_formed order_db.
Proof.
  split.
  - apply (bool_decide_unpack _). vm_compute. exact I.
  - apply Forall_forall. apply (bool_decide_unpack _). vm_compute. exact I.
Defined.

Lemma order_db_referential_integrity : referential_integrity order_db.
Proof.
  split.
  - apply (bool_decide_unpack _). vm_compute. exact I.
  - apply (bool_decide_unpack _). vm_compute. exact I.
  - apply Forall_forall. apply (bool_decide_unpack _). vm_compute. exact I.
  - apply Forall_forall. apply (bool_decide_unpack _). vm_compute. exact I.
Defined.


Lemma shop_db_nonnegative_stock : nonnegative_stock shop_db.
Proof.
  intros p Hp. apply elem_of_cons in Hp as [->|Hp]; [done|].
  by apply list_elem_of_singleton in Hp as ->.
Defined.

Lemma shop_db_positive_prices : positive_prices shop_db.
Proof.
  intros p Hp. apply elem_of_cons in Hp as [->|Hp]; [done|].
  by apply list_elem_of_singleton in Hp as ->.
Defined.

(** A number written with brackets and dashes: ten digits after the country
    code. *)
Lemma valid_phone_size_witness :
  (11 <= count_class is_digit (list_ascii_of_string "+1 (555) 123-4567") <= 18)%nat
  /\ (11 <= length (list_ascii_of_string "+1 (555) 123-4567") <= 21)%nat.
Proof.
  apply (valid_phone_size "+1 (555) 123-4567"). vm_compute. reflexivity.
Defined.

(** The bounds are met: eighteen digits in twenty characters, and one more
    character with a final newline. *)
Lemma valid_phone_longest :
  valid_phone "+123 123456789012345" = true
  /\ count_class is_digit (list_ascii_of_string "+123 123456789012345") = 18%nat
  /\ valid_phone ("+123 123456789012345" +:+ String newline "") = true
  /\ String.length ("+123 123456789012345" +:+ String newline "") = 21%nat
  /\ valid_phone "12345678901" = true.
Proof. repeat split; vm_compute; reflexivity. Qed.

(** Looking up the keys [1], [7] and [it's] in the sample shop. The last is
    written between double quotes, for the quote it holds. *)
Lemma resolve_customer_lookup_witness :
  resolve_customer ascii_int "1" shop_db = (Return (Some ann), shop_db)
  /\ resolve_customer ascii_int "7" shop_db = (Return None, shop_db)
  /\ resolve_customer ascii_int "it's" shop_db
     = (Raise (ValueError
                 ("Field 'id' expected a number but got "
                  +:+ String double_quote ("it's" +:+ String double_quote "."))),
        shop_db).
Proof.
  split; [|split].
  - apply (proj1 (proj2 (resolve_customer_lookup ascii_int "1" shop_db)) ann).
    + reflexivity.
    + apply (bool_decide_unpack _). vm_compute. exact I.
    + by left.
  - apply (proj1 (resolve_customer_lookup ascii_int "7" shop_db) 7).
    + reflexivity.
    + unfold sqlite_integer. lia.
    + apply (bool_decide_unpack _). vm_compute. exact I.
  - apply (proj2 (proj2 (resolve_customer_lookup ascii_int "it's" shop_db))).
    reflexivity.
Defined.

(** Bob is created and found again under the key [2]. *)
Lemma CreateCustomer_then_resolve_witness :
  resolve_customer ascii_int "2"
    (CreateCustomer_mutate plain_email
       (CustomerInput.make "Bob" "bob@x.org" Omitted) shop_db).2
  = (Return (Some {| Customer.id := 2; Customer.name := "Bob";
                     Customer.email := "bob@x.org"; Customer.phone := None |}),
     (CreateCustomer_mutate plain_email
        (CustomerInput.make "Bob" "bob@x.org" Omitted) shop_db).2).
Proof.
  destruct (CreateCustomer_mutate plain_email
              (CustomerInput.make "Bob" "bob@x.org" Omitted) shop_db)
    as [[r|e] db'] eqn:Hrun.
  - assert (ascii_int "2" = Some (Customer.id (CreateCustomer.customer r))) as Hid.
    { vm_compute in Hrun. injection Hrun as <- <-. reflexivity. }
    destruct (CreateCustomer_then_resolve plain_email ascii_int _ _ _ _ "2"
                Hrun Hid) as [Hfound _].
    vm_compute in Hrun. injection Hrun as <- <-. exact Hfound.
  - vm_compute in Hrun. discriminate Hrun.
Defined.

(** Two customers created in one call; the second is found under the key
    [3]. *)
Lemma BulkCreateCustomers_then_resolve_witness :
  resolve_customer ascii_int "3"
    (BulkCreateCustomers_mutate plain_email
       [BulkCustomerInput.make "Bob" "bob@x.org" Omitted;
        BulkCustomerInput.make "Cy" "cy@x.org" Omitted] shop_db).2
  = (Return (Some {| Customer.id := 3; Customer.name := "Cy";
                     Customer.email := "cy@x.org"; Customer.phone := None |}),
     (BulkCreateCustomers_mutate plain_email
        [BulkCustomerInput.make "Bob" "bob@x.org" Omitted;
         BulkCustomerInput.make "Cy" "cy@x.org" Omitted] shop_db).2).
Proof.
  destruct (BulkCreateCustomers_mutate plain_email
              [BulkCustomerInput.make "Bob" "bob@x.org" Omitted;
               BulkCustomerInput.make "Cy" "cy@x.org" Omitted] shop_db)
    as [[r|e] db'] eqn:Hrun.
  - destruct (BulkCreateCustomers_then_resolve plain_email ascii_int _ _ _ _
                {| Customer.id := 3; Customer.name := "Cy";
                   Customer.email := "cy@x.org"; Customer.phone := None |}
                "3" Hrun) as [Hfound _].
    + vm_compute in Hrun. injection Hrun as <- <-. right. by left.
    + reflexivity.
    + exact Hfound.
  - vm_compute in Hrun. discriminate Hrun.
Defined.

(** Bob's address cannot be used a second time, under another name, also
    after a product and an order have been created in between. *)
Lemma CreateCustomer_not_twice_witness :
  CreateCustomer_mutate plain_email
    (CustomerInput.make "Rob" "bob@x.org" (Value "+1 (555) 123-4567"))
    (Mutation_runs plain_email ascii_int
       [create_product (ProductInput.make "cap" 99 Omitted);
        create_order {| OrderInput.customer_id := "2";
                        OrderInput.product_ids := ["3"] |}]
       (CreateCustomer_mutate plain_email
          (CustomerInput.make "Bob" "bob@x.org" Omitted) shop_db).2)
  = (Raise code_list_error,
     Mutation_runs plain_email ascii_int
       [create_product (ProductInput.make "cap" 99 Omitted);
        create_order {| OrderInput.customer_id := "2";
                        OrderInput.product_ids := ["3"] |}]
       (CreateCustomer_mutate plain_email
          (CustomerInput.make "Bob" "bob@x.org" Omitted) shop_db).2).
Proof.
  destruct (CreateCustomer_mutate plain_email
              (CustomerInput.make "Bob" "bob@x.org" Omitted) shop_db)
    as [[r|e] db'] eqn:Hrun.
  - apply (proj1 (CreateCustomer_not_twice plain_email ascii_int _ _ _ _
                    [create_product (ProductInput.make "cap" 99 Omitted);
                     create_order {| OrderInput.customer_id := "2";
                                     OrderInput.product_ids := ["3"] |}]
                    Hrun)).
    reflexivity.
  - vm_compute in Hrun. discriminate Hrun.
Defined.

(** The two calls in between do create the cap and the order of Bob. *)
Lemma CreateCustomer_not_twice_between :
  let later :=
    Mutation_runs plain_email ascii_int
      [create_product (ProductInput.make "cap" 99 Omitted);
       create_order {| OrderInput.customer_id := "2";
                       OrderInput.product_ids := ["3"] |}]
      (CreateCustomer_mutate plain_email
         (CustomerInput.make "Bob" "bob@x.org" Omitted) shop_db).2 in
  length (crm_product later) = 3%nat
  /\ crm_order later
     = [{| Order.id := 1; Order.customer := 2; Order.total_amount := 99 |}].
Proof. vm_compute. done. Qed.


(** The same pen, spelled [1] and [01], is one product twice. *)
Lemma CreateOrder_two_spellings :
  CreateOrder_mutate ascii_int
    {| OrderInput.customer_id := "1"; OrderInput.product_ids := ["1"; "01"] |}
    shop_db
  = (Raise (Exception "Validation Error: Invalid product ID(s) found: "), shop_db).
Proof. vm_compute. reflexivity. Qed.

(** Ann's order prints with its key and her name. *)
Lemma CreateOrder_str_witness :
  Order_str {| Order.id := 1; Order.customer := 1; Order.total_amount := 400 |}
    (CreateOrder_mutate ascii_int
       {| OrderInput.customer_id := "1"; OrderInput.product_ids := ["1"; "2"] |}
       shop_db).2
  = (Return "Order 1 by Ann",
     (CreateOrder_mutate ascii_int
        {| OrderInput.customer_id := "1"; OrderInput.product_ids := ["1"; "2"] |}
        shop_db).2).
Proof.
  destruct (CreateOrder_mutate ascii_int
              {| OrderInput.customer_id := "1";
                 OrderInput.product_ids := ["1"; "2"] |} shop_db)
    as [[r|e] db'] eqn:Hrun.
  - destruct (CreateOrder_str ascii_int _ _ _ _ Hrun) as (c & Hc & _ & Hstr).
    apply list_elem_of_singleton in Hc as ->.
    vm_compute in Hrun. injection Hrun as <- <-. exact Hstr.
  - vm_compute in Hrun. discriminate Hrun.
Defined.

(** A second order leaves Ann, the two products, the first order and its
    links in place. *)
Lemma Mutation_appends_witness :
  crm_customer
    (Mutation_run plain_email ascii_int
       (create_order {| OrderInput.customer_id := "1";
                        OrderInput.product_ids := ["2"] |}) order_db)
  = [ann]
  /\ crm_product
       (Mutation_run plain_email ascii_int
          (create_order {| OrderInput.customer_id := "1";
                           OrderInput.product_ids := ["2"] |}) order_db)
     = [pen; ink]
  /\ crm_order order_db
     `prefix_of`
     crm_order
       (Mutation_run plain_email ascii_int
          (create_order {| OrderInput.customer_id := "1";
                           OrderInput.product_ids := ["2"] |}) order_db)
  /\ crm_order_products order_db
     `prefix_of`
     crm_order_products
       (Mutation_run plain_email ascii_int
          (create_order {| OrderInput.customer_id := "1";
                           OrderInput.product_ids := ["2"] |}) order_db).
Proof.
  destruct (Mutation_appends plain_email ascii_int
              (create_order {| OrderInput.customer_id := "1";
                               OrderInput.product_ids := ["2"] |})
              order_db order_db_well_formed) as (_ & _ & Ho & Hl & Hc & Hp).
  split; [exact Hc|]. split; [exact Hp|]. split; [exact Ho | exact Hl].
Defined.

(** After a second order of Ann, keys and references are sound. *)
Lemma Mutation_referential_integrity_witness :
  referential_integrity
    (Mutation_run plain_email ascii_int
       (create_order {| OrderInput.customer_id := "1";
                        OrderInput.product_ids := ["2"] |}) order_db).
Proof.
  apply (Mutation_referential_integrity plain_email ascii_int).
  - exact order_db_well_formed.
  - exact order_db_referential_integrity.
Defined.

(** A cap with a stock of 12 joins the pen and the ink. *)
Lemma Mutation_nonnegative_stock_witness :
  nonnegative_stock
    (Mutation_run plain_email ascii_int
       (create_product (ProductInput.make "cap" 99 (Value 12))) shop_db).
Proof.
  apply (Mutation_nonnegative_stock plain_email ascii_int).
  exact shop_db_nonnegative_stock.
Defined.


(** An order of the ink alone: 2.50. *)
Lemma CreateOrder_total_positive_witness :
  match (CreateOrder_mutate ascii_int
           {| OrderInput.customer_id := "1"; OrderInput.product_ids := ["2"] |}
           shop_db).1 with
  | Return r => 0 < Order.total_amount (CreateOrder.order r)
  | Raise _ => False
  end.
Proof.
  destruct (CreateOrder_mutate ascii_int
              {| OrderInput.customer_id := "1"; OrderInput.product_ids := ["2"] |}
              shop_db) as [[r|e] db'] eqn:Hrun.
  - exact (CreateOrder_total_positive ascii_int _ _ _ _ shop_db_well_formed
             shop_db_positive_prices Hrun).
  - vm_compute in Hrun. discriminate Hrun.
Defined.

(** Of four identifiers, the two that are no stored product are named. *)
Lemma CreateOrder_invalid_ids_witness :
  CreateOrder_mutate ascii_int
    {| OrderInput.customer_id := "1";
       OrderInput.product_ids := ["1"; "9"; "2"; "8"] |} shop_db
  = (Raise (Exception "Validation Error: Invalid product ID(s) found: 9, 8"),
     shop_db).
Proof.
  rewrite (CreateOrder_invalid_ids ascii_int
             {| OrderInput.customer_id := "1";
                OrderInput.product_ids := ["1"; "9"; "2"; "8"] |}
             shop_db [1; 9; 2; 8]).
  - reflexivity.
  - exact shop_db_product_pk.
  - exists 1. split; [reflexivity|]. by left.
  - by repeat constructor.
  - repeat constructor; unfold sqlite_integer; lia.
  - done.
  - intros [_ Hstored]. specialize (Hstored 9).
    revert Hstored. apply (bool_decide_unpack _). vm_compute. exact I.
Defined.

(** A name where the key of the customer is expected. *)
Lemma CreateOrder_not_a_number_witness :
  CreateOrder_mutate ascii_int
    {| OrderInput.customer_id := "ann"; OrderInput.product_ids := ["1"] |} shop_db
  = (Raise (ValueError "Field 'id' expected a number but got 'ann'."), shop_db).
Proof.
  apply (proj1 (CreateOrder_not_a_number ascii_int
                  {| OrderInput.customer_id := "ann";
                     OrderInput.product_ids := ["1"] |} shop_db
                  ltac:(discriminate))).
  reflexivity.
Defined.

(** The address of [ann] is well formed and she has no phone. *)
Lemma shop_db_valid_customers : valid_customers plain_email shop_db.
Proof.
  intros c Hc. apply list_elem_of_singleton in Hc as ->.
  split; [vm_compute; reflexivity | discriminate].
Defined.

(** Of two records, the one with a well-formed address is stored. *)
Lemma Mutation_valid_customers_witness :
  valid_customers plain_email
    (Mutation_run plain_email ascii_int
       (bulk_create_customers
          [BulkCustomerInput.make "Bob" "bob@x.org" (Value "+1 (555) 123-4567");
           BulkCustomerInput.make "Cy" "cy.x.org" Omitted]) shop_db).
Proof.
  apply (Mutation_valid_customers plain_email ascii_int).
  exact shop_db_valid_customers.
Defined.
